(** * airports_api: the nearest-facility query engine and the ranked text search

    A shallow embedding of [src/services/airportService.js] together with the
    part of PostgreSQL it talks to.  The table [airports] created by
    [src/scripts/migrate.js] is a list of rows in storage order; every SQL
    text the service sends is interpreted over that list ([WHERE] is a
    [filter], [ORDER BY] a stable sort, [LIMIT] a [firstn]).

    Numbers.  SQL [double precision] and JavaScript numbers are idealised as
    the real numbers of the Standard Library: rounding, NaN and signed
    infinities are not represented.  The only non-finite JavaScript value the
    service tests for, [Infinity] as a search radius, is a constructor of
    [MaxDistance].  The constant [Math.PI] is the double it is, a rational
    number just below pi.  Where rounding decides what the program does, the
    select list is evaluated in binary64 ([Float8]).

    Strings are byte strings in the encoding of the database.  SQL [LOWER]
    follows the locale of the database: [Sql.lower] is the one of the "C"
    locale, the ASCII lower-casing, and the text search is given for any
    other as well ([searchByName_in]). *)

From Stdlib Require Import Reals Machin Lra List ZArith Lia Bool.
From Stdlib Require Import String Ascii.
From Stdlib Require Import Sorting.Sorted Sorting.Permutation.
From Stdlib Require PrimFloat FloatOps SpecFloat.
Import ListNotations.

Set Implicit Arguments.

(** ** Results of calls that go through the connection pool *)

(** [query] of [config/database.js] rethrows whatever the pool raises, and
    the service never catches: a failed statement is the result of the
    service method. *)
Inductive error : Type :=
| StoreError (message : string).

Inductive result (A : Type) : Type :=
| Ok (value : A)
| Err (e : error).

Arguments Ok {A} value.
Arguments Err {A} e.

Definition bind {A B : Type} (m : result A) (k : A -> result B) : result B :=
  match m with
  | Ok a => k a
  | Err e => Err e
  end.

Notation "'await' x <- m ; k" := (bind m (fun x => k))
  (at level 61, x name, m at next level, right associativity).

(** [try { ... } catch (error) { ... }] around a call of the pool. *)
Definition try_catch {A : Type} (m : result A) (handler : error -> A) : A :=
  match m with
  | Ok a => a
  | Err e => handler e
  end.

(** A JavaScript default parameter: the default replaces an omitted
    argument. *)
Definition dflt {A : Type} (d : A) (arg : option A) : A :=
  match arg with
  | Some a => a
  | None => d
  end.

(** ** The catalog *)

(** One row of [airports]; the columns without [NOT NULL] are options. *)
Record Row : Type := mkRow {
  icao : string;
  name : string;
  latitude : R;
  longitude : R;
  city : option string;
  country : option string;
  elevation : option Z;
  type : option string
}.

Definition Catalog : Type := list Row.

(** ** SQL operators *)

Module Sql.

Definition Rleb (x y : R) : bool := if Rle_dec x y then true else false.
Definition Rltb (x y : R) : bool := if Rlt_dec x y then true else false.

(** [x BETWEEN lo AND hi] *)
Definition between (x lo hi : R) : bool := Rleb lo x && Rleb x hi.

(** [radians(d)] *)
Definition radians (d : R) : R := (d * PI / 180)%R.

(** [col = ANY(arr)] on a nullable text column: NULL is never selected. *)
Definition eq_any (col : option string) (arr : list string) : bool :=
  match col with
  | Some v => existsb (String.eqb v) arr
  | None => false
  end.

Section OrderBy.
Variable A : Type.
Variable leb : A -> A -> bool.

Fixpoint insert (x : A) (l : list A) : list A :=
  match l with
  | [] => [x]
  | y :: l' => if leb x y then x :: l else y :: insert x l'
  end.

(** [ORDER BY].  PostgreSQL leaves the order of rows with equal keys open;
    here they keep their storage order, which makes every statement a
    function of the table. *)
Fixpoint order_by (l : list A) : list A :=
  match l with
  | [] => []
  | x :: l' => insert x (order_by l')
  end.
End OrderBy.

(** [LIMIT n]: PostgreSQL refuses a negative count. *)
Definition limit {A : Type} (n : Z) (rows : list A) : result (list A) :=
  if (n <? 0)%Z
  then Err (StoreError "LIMIT must not be negative")
  else Ok (firstn (Z.to_nat n) rows).

(** The row count of a table.  The table of this model is always there;
    a store that does not answer is outside of it. *)
Definition count_rows {A : Type} (rows : list A) : result Z :=
  Ok (Z.of_nat (List.length rows)).

(** A JavaScript number bound to a parameter that the statement reads as
    a [bigint], as [LIMIT $n] does: PostgreSQL refuses a value outside the
    64-bit range. *)
Definition bigint_max : Z := 9223372036854775807.

Definition bigint (n : Z) : result Z :=
  if (n <? - bigint_max - 1)%Z || (bigint_max <? n)%Z
  then Err (StoreError "value out of range for type bigint")
  else Ok n.

(** [LOWER(s)], on the ASCII range. *)
Definition lower_ascii (c : ascii) : ascii :=
  let n := N_of_ascii c in
  if (65 <=? n)%N && (n <=? 90)%N then ascii_of_N (n + 32) else c.

Fixpoint lower (s : string) : string :=
  match s with
  | EmptyString => EmptyString
  | String c s' => String (lower_ascii c) (lower s')
  end.

(** [s LIKE p] with the default escape character: [%] stands for any
    run of characters, [_] for any one character, and a backslash makes
    the next pattern character literal.  PostgreSQL raises an error for a
    pattern that ends in a lone backslash; the patterns of the service
    always end in [%], so that branch only has to exist. *)
Fixpoint like_pattern (p : string) : string -> bool :=
  match p with
  | EmptyString =>
      fun s => match s with EmptyString => true | String _ _ => false end
  | String c p' =>
      if Ascii.eqb c "%" then
        fix any_run (s : string) : bool :=
          like_pattern p' s
          || match s with
             | EmptyString => false
             | String _ s' => any_run s'
             end
      else if Ascii.eqb c "_" then
        fun s => match s with
                 | EmptyString => false
                 | String _ s' => like_pattern p' s'
                 end
      else if Ascii.eqb c "\" then
        match p' with
        | EmptyString => fun _ => false
        | String d p'' =>
            fun s => match s with
                     | EmptyString => false
                     | String x s' => Ascii.eqb x d && like_pattern p'' s'
                     end
        end
      else
        fun s => match s with
                 | EmptyString => false
                 | String x s' => Ascii.eqb x c && like_pattern p' s'
                 end
  end.

Definition like (s p : string) : bool := like_pattern p s.

(** [LOWER(col) LIKE p] on a nullable column: NULL selects nothing. *)
Definition lower_like (col : option string) (p : string) : bool :=
  match col with
  | Some s => like (lower s) p
  | None => false
  end.

End Sql.

(** ** Geographic queries *)

Local Open Scope R_scope.

(** The radius argument: [Infinity] or a number of kilometres. *)
Inductive MaxDistance : Type :=
| Infinity
| Km (r : R).

(** A row as [pg] returns it: the selected columns, and [distance] when
    the statement selects it. *)
Record SqlRow : Type := mkSqlRow {
  columns : Row;
  distance : option R
}.

(** What the service returns ([formatAirport]). *)
Record Airport : Type := mkAirport {
  a_icao : string;
  a_name : string;
  a_lat : R;
  a_lon : R;
  a_city : option string;
  a_country : option string;
  a_elevation : option Z;
  a_type : option string;
  a_distance : option R
}.

(** The argument of [acos] in the select list of [buildGeoQuery]. *)
Definition acos_arg (p1 p2 lat lon : R) : R :=
  cos (Sql.radians p1) * cos (Sql.radians lat) *
    cos (Sql.radians lon - Sql.radians p2)
  + sin (Sql.radians p1) * sin (Sql.radians lat).

(** [6371 * acos(...) AS distance] *)
Definition distance_expr (p1 p2 lat lon : R) : R :=
  6371 * acos (acos_arg p1 p2 lat lon).

Definition row_distance (p1 p2 : R) (a : Row) : R :=
  distance_expr p1 p2 (latitude a) (longitude a).

(** The same select list as PostgreSQL evaluates it, in [float8] (IEEE
    binary64).  [radians] multiplies by the constant [RADIANS_PER_DEGREE]
    (0.0174532925199432957692, as a double); [cos], [sin] and [acos] are
    those of the C library the server is linked with; the SQL function
    [acos] returns NaN for NaN and refuses an argument outside [-1, 1]
    before it calls the library. *)
Module Float8.
Import PrimFloat.
Local Open Scope float_scope.

Definition RADIANS_PER_DEGREE : float := 0x1.1df46a2529d39p-6.

Definition radians (x : float) : float := x * RADIANS_PER_DEGREE.

Section Libm.
Variables cos sin acos : float -> float.

Definition acos_arg (p1 p2 lat lon : float) : float :=
  cos (radians p1) * cos (radians lat) * cos (radians lon - radians p2)
  + sin (radians p1) * sin (radians lat).

Definition dacos (x : float) : result float :=
  if is_nan x then Ok nan
  else if (x <? -1) || (1 <? x) then
    Err (StoreError "input is out of range")
  else Ok (acos x).

Definition distance_expr (p1 p2 lat lon : float) : result float :=
  await d <- dacos (acos_arg p1 p2 lat lon);
  Ok (6371 * d).
End Libm.

(** The real number a finite double stands for. *)
Definition to_R (x : float) : R :=
  match FloatOps.Prim2SF x with
  | SpecFloat.S754_finite s m e =>
      ((if s then -1 else 1) * IZR (Zpos m) * powerRZ 2 e)%R
  | _ => 0%R
  end.
End Float8.

(** The select list of [buildGeoQuery(includeDistance)], applied to one
    row of [airports] with [$1 = p1] and [$2 = p2]. *)
Definition buildGeoQuery (includeDistance : bool) (p1 p2 : R) (a : Row)
  : SqlRow :=
  {| columns := a;
     distance := if includeDistance then Some (row_distance p1 p2 a)
                 else None |}.

(** [formatAirport(airport, includeDistance)].  [parseFloat] is the
    identity on the numbers of this model; the service asks for the
    distance only of rows that carry one. *)
Definition formatAirport (airport : SqlRow) (includeDistance : bool)
  : Airport :=
  {| a_icao := icao (columns airport);
     a_name := name (columns airport);
     a_lat := latitude (columns airport);
     a_lon := longitude (columns airport);
     a_city := city (columns airport);
     a_country := country (columns airport);
     a_elevation := elevation (columns airport);
     a_type := type (columns airport);
     a_distance := if includeDistance then distance airport else None |}.

Definition default_types : list string :=
  ["large_airport"; "medium_airport"; "small_airport"]%string.

Definition latRange (maxDistance : MaxDistance) : R :=
  match maxDistance with
  | Infinity => 90
  | Km d => d / 111
  end.

(** [Math.PI]: the double nearest to pi, 884279719003555 / 2^48. *)
Definition Math_PI : R := 884279719003555 / 281474976710656.

Definition lonRange (maxDistance : MaxDistance) (lat : R) : R :=
  match maxDistance with
  | Infinity => 180
  | Km d => d / (111 * cos (lat * Math_PI / 180))
  end.

(** [typeFilter]: the clause is appended only for a non-empty array. *)
Definition typeFilter (types : list string) (a : Row) : bool :=
  if (0 <? List.length types)%nat then Sql.eq_any (type a) types else true.

(** The [WHERE] clause of both geographic statements, with
    [$1 = lat], [$2 = lon], [$3 = latRange], [$4 = lonRange]. *)
Definition where_clause (lat lon dlat dlon : R) (types : list string)
    (a : Row) : bool :=
  Sql.between (latitude a) (lat - dlat) (lat + dlat)
  && Sql.between (longitude a) (lon - dlon) (lon + dlon)
  && typeFilter types a.

Definition by_distance (lat lon : R) (a b : Row) : bool :=
  Sql.Rleb (row_distance lat lon a) (row_distance lat lon b).

(** [FROM airports WHERE ... ORDER BY distance]: the rows of the rectangle
    and of the requested types, nearest first. *)
Definition candidates (db : Catalog) (lat lon dlat dlon : R)
    (types : list string) : list Row :=
  Sql.order_by (by_distance lat lon)
    (filter (where_clause lat lon dlat dlon types) db).

(** [buildGeoQuery() WHERE ... ORDER BY distance LIMIT n] *)
Definition geo_query (db : Catalog) (lat lon dlat dlon : R)
    (types : list string) (n : Z) : result (list SqlRow) :=
  await rows <- Sql.limit n (candidates db lat lon dlat dlon types);
  Ok (map (buildGeoQuery true lat lon) rows).

(** [result.rows[0].distance > maxDistance]; a missing field compares
    false. *)
Definition exceeds (r : SqlRow) (maxDistance : MaxDistance) : bool :=
  match maxDistance, distance r with
  | Km d, Some x => Sql.Rltb d x
  | _, _ => false
  end.

(** [maxDistance === Infinity || parseFloat(a.distance) <= maxDistance] *)
Definition within (maxDistance : MaxDistance) (a : SqlRow) : bool :=
  match maxDistance with
  | Infinity => true
  | Km d => match distance a with
            | Some x => Sql.Rleb x d
            | None => false
            end
  end.

Definition findNearestAirport (db : Catalog) (lat lon : R)
    (maxDistance : option MaxDistance) (types : option (list string))
  : result (option Airport) :=
  let maxDistance := dflt Infinity maxDistance in
  let types := dflt default_types types in
  let latRange := latRange maxDistance in
  let lonRange := lonRange maxDistance lat in
  await rows <- geo_query db lat lon latRange lonRange types 1;
  match rows with
  | [] => Ok None
  | first :: _ =>
      if exceeds first maxDistance then Ok None
      else Ok (Some (formatAirport first true))
  end.

Definition findNearestAirports (db : Catalog) (lat lon : R)
    (limit : option Z) (maxDistance : option MaxDistance)
    (types : option (list string))
  : result (list Airport) :=
  let limit := dflt 5%Z limit in
  let maxDistance := dflt Infinity maxDistance in
  let types := dflt default_types types in
  let latRange := latRange maxDistance in
  let lonRange := lonRange maxDistance lat in
  await rows <- geo_query db lat lon latRange lonRange types limit;
  Ok (map (fun a => formatAirport a true) (filter (within maxDistance) rows)).


(** ** Lookups by identifier and by text *)

Local Open Scope string_scope.

(** [buildGeoQuery(false) WHERE LOWER(icao) = LOWER($1) LIMIT 1]; the two
    coordinates of [buildGeoQuery] are not read without the distance. *)
Definition findByICAO (db : Catalog) (code : string) : result (option Airport) :=
  await rows <-
    Sql.limit 1
      (filter (fun a => String.eqb (Sql.lower (icao a)) (Sql.lower code)) db);
  match map (buildGeoQuery false 0 0) rows with
  | [] => Ok None
  | first :: _ => Ok (Some (formatAirport first false))
  end.

(** [WHERE LOWER(name) LIKE LOWER($1) OR LOWER(city) LIKE LOWER($1)] *)
Definition search_where (p1 : string) (a : Row) : bool :=
  Sql.like (Sql.lower (name a)) (Sql.lower p1)
  || Sql.lower_like (city a) (Sql.lower p1).

(** [CASE WHEN LOWER(name) LIKE LOWER($2) THEN 1
          WHEN LOWER(city) LIKE LOWER($2) THEN 2 ELSE 3 END] *)
Definition search_rank (p2 : string) (a : Row) : Z :=
  if Sql.like (Sql.lower (name a)) (Sql.lower p2) then 1%Z
  else if Sql.lower_like (city a) (Sql.lower p2) then 2%Z
  else 3%Z.

(** The order of two texts under the collation of the database.  The
    collation belongs to the installation, not to the repository: it is
    given by its sort key [strxfrm], and two texts compare as their keys do
    byte by byte (the identity is the "C" collation). *)
Definition collate_leb (strxfrm : string -> string) (s t : string) : bool :=
  String.leb (strxfrm s) (strxfrm t).

(** [ORDER BY CASE ... END, name] *)
Definition by_rank_name (strxfrm : string -> string) (p2 : string)
    (a b : Row) : bool :=
  (search_rank p2 a <? search_rank p2 b)%Z
  || (search_rank p2 a =? search_rank p2 b)%Z
     && collate_leb strxfrm (name a) (name b).

Definition searchByName (strxfrm : string -> string) (db : Catalog)
    (name : string) (limit : option Z) : result (list Airport) :=
  let limit := dflt 10%Z limit in
  let p1 := "%" ++ name ++ "%" in
  let p2 := name ++ "%" in
  await rows <-
    Sql.limit limit
      (Sql.order_by (by_rank_name strxfrm p2) (filter (search_where p1) db));
  Ok (map (fun a => formatAirport a false) (map (buildGeoQuery false 0 0) rows)).

(** The row count of [airports], then [parseInt(count) > 0]; [false] when
    the statement fails. *)
Definition isDataLoaded (db : Catalog) : bool :=
  try_catch (await count <- Sql.count_rows db; Ok (0 <? count)%Z)
    (fun _ => false).

(** ** The HTTP layer ([routes/index.js]) *)

(** A JavaScript number, as [parseFloat] returns one. *)
Inductive number : Type :=
| NaN
| Num (x : R)
| PlusInfinity
| MinusInfinity.

Definition isNaN (n : number) : bool :=
  match n with
  | NaN => true
  | _ => false
  end.

(** [n < x] and [n > x] for a number literal [x]: false on [NaN]. *)
Definition number_lt (n : number) (x : R) : bool :=
  match n with
  | Num v => Sql.Rltb v x
  | MinusInfinity => true
  | NaN | PlusInfinity => false
  end.

Definition number_gt (n : number) (x : R) : bool :=
  match n with
  | Num v => Sql.Rltb x v
  | PlusInfinity => true
  | NaN | MinusInfinity => false
  end.

(** A parameter of [req.query]: absent, or a string.  Only the empty
    string and the absent parameter are falsy. *)
Definition truthy (v : option string) : bool :=
  match v with
  | Some s => negb (String.eqb s "")
  | None => false
  end.

(** A parameter inside a template literal. *)
Definition template (v : option string) : string := dflt "undefined" v.


(** What [res.json] sends: a failure with its message, one facility, or a
    list of facilities with its count.  The [location] object repeats the
    two coordinates of the facility and is not kept apart. *)
Inductive Body : Type :=
| Failure (message : string)
| Facility (data : Airport)
| Facilities (count : nat) (data : list Airport).

Record Response : Type := mkResponse {
  status : Z;
  body : Body
}.

(** [validateCoordinates]: a response, or [next()] with
    [req.coordinates]. *)
Definition validateCoordinates (parseFloat : string -> number)
    (lat lon : option string) : Response + number * number :=
  if negb (truthy lat) || negb (truthy lon) then
    inl (mkResponse 400 (Failure "Les paramètres lat et lon sont requis"))
  else
    let latitude := parseFloat (template lat) in
    let longitude := parseFloat (template lon) in
    if isNaN latitude || isNaN longitude then
      inl (mkResponse 400
             (Failure "Les paramètres lat et lon doivent être des nombres valides"))
    else if number_lt latitude (-90) || number_gt latitude 90
            || number_lt longitude (-180) || number_gt longitude 180 then
      inl (mkResponse 400
             (Failure "Coordonnées invalides (lat: -90 à 90, lon: -180 à 180)"))
    else inr (latitude, longitude).

(** [checkDataLoaded]: a response, or [next()]. *)
Definition checkDataLoaded (db : Catalog) : option Response :=
  if isDataLoaded db then None
  else Some (mkResponse 503
               (Failure "Aucune donnée d'aéroport dans la base. Exécutez: npm run db:migrate && npm run db:import")).

(** The type array the two geographic handlers build from the [type]
    parameter. *)
Definition requested_types (type : option string) : list string :=
  if truthy type then
    if String.eqb (template type) "all" then [] else [template type]
  else ["large_airport"; "medium_airport"; "small_airport"]%string.



(** [limit ? parseInt(limit) : 10] *)
Definition requested_limit (parseInt : string -> option Z)
    (limit : option string) : option Z :=
  if truthy limit then parseInt (template limit) else Some 10%Z.

(** The handler of [GET /icao/search], behind [checkDataLoaded].
    [parseInt] answers [None] for [NaN]; the limit reaches the statement as
    it is, and the store refuses [NaN] and what is not a [bigint]. *)
Definition icao_search (parseInt : string -> option Z)
    (strxfrm : string -> string) (db : Catalog)
    (code name limit : option string) : Response :=
  match checkDataLoaded db with
  | Some refusal => refusal
  | None =>
      if negb (truthy code) && negb (truthy name) then
        mkResponse 400 (Failure "Le paramètre code ou name est requis")
      else if truthy code then
        match findByICAO db (template code) with
        | Ok (Some airport) => mkResponse 200 (Facility airport)
        | Ok None =>
            mkResponse 404
              (Failure ("Aucun aéroport trouvé avec le code ICAO: "
                        ++ template code))
        | Err _ => mkResponse 500 (Failure "Erreur lors de la recherche")
        end
      else
        match
          await n <-
            match requested_limit parseInt limit with
            | Some n => Sql.bigint n
            | None => Err (StoreError "invalid input syntax for type bigint")
            end;
          searchByName strxfrm db (template name) (Some n)
        with
        | Ok [] =>
            mkResponse 404
              (Failure ("Aucun aéroport trouvé pour: " ++ template name))
        | Ok airports =>
            mkResponse 200 (Facilities (List.length airports) airports)
        | Err _ => mkResponse 500 (Failure "Erreur lors de la recherche")
        end
  end.

(** ** The vocabulary of the specification *)

(** [q] occurs in [s]; [q] is at the start of [s]. *)
Definition contains (q s : string) : Prop :=
  exists pre post, s = pre ++ q ++ post.

Definition starts_with (q s : string) : Prop :=
  exists post, s = q ++ post.

Fixpoint starts_withb (q s : string) : bool :=
  match q, s with
  | EmptyString, _ => true
  | String c q', String d s' => Ascii.eqb c d && starts_withb q' s'
  | String _ _, EmptyString => false
  end.

Fixpoint containsb (q s : string) : bool :=
  starts_withb q s
  || match s with
     | EmptyString => false
     | String _ s' => containsb q s'
     end.

(** [q] occurs in [s], ignoring the case of the ASCII letters. *)
Definition contains_ci (q s : string) : Prop :=
  contains (Sql.lower q) (Sql.lower s).

Definition opt_contains_ci (q : string) (s : option string) : Prop :=
  match s with
  | Some s => contains_ci q s
  | None => False
  end.

(** The characters [LIKE] gives a meaning to. *)
Definition like_special (c : ascii) : bool :=
  Ascii.eqb c "%" || Ascii.eqb c "_" || Ascii.eqb c "\".

Fixpoint like_free (q : string) : bool :=
  match q with
  | EmptyString => true
  | String c q' => negb (like_special c) && like_free q'
  end.



(** The first element of an answer, as [rows[0]] reads it. *)
Definition first_of {A : Type} (answer : result (list A)) : result (option A) :=
  await l <- answer; Ok (hd_error l).

(** The rectangle of the [WHERE] clause, without the type clause. *)
Definition in_rectangle (lat lon dlat dlon : R) (a : Row) : bool :=
  Sql.between (latitude a) (lat - dlat) (lat + dlat)
  && Sql.between (longitude a) (lon - dlon) (lon + dlon).

(** The rows of the catalog that pass the [WHERE] clause and the radius
    test of a geographic query. *)
Definition qualifies (lat lon : R) (maxDistance : MaxDistance)
    (types : list string) (a : Row) : bool :=
  where_clause lat lon (latRange maxDistance) (lonRange maxDistance lat) types a
  && within maxDistance (buildGeoQuery true lat lon a).

(** What the lookups without a distance answer with for a row. *)
Definition plain (a : Row) : Airport :=
  formatAirport (buildGeoQuery false 0 0 a) false.

(** No two rows of the catalog have the same identifier up to case. *)
Definition case_unique (db : Catalog) : Prop :=
  forall a b, In a db -> In b db ->
    Sql.lower (icao a) = Sql.lower (icao b) -> a = b.

(** The test of [findByICAO] on one row. *)
Definition icao_is (code : string) (a : Row) : bool :=
  String.eqb (Sql.lower (icao a)) (Sql.lower code).


(** ** The text search under the locale of the database *)

(** [LOWER] follows the locale of the database, which belongs to the
    installation as the collation does.  [searchByName_in lower] is
    [searchByName] on a database whose [LOWER] is [lower], with the limit
    bound as the [bigint] that [LIMIT] reads; [searchByName] above is the
    database of the "C" locale, for limits in that range. *)
Section Locale.
Variable lower : string -> string.

Definition lower_like_in (col : option string) (p : string) : bool :=
  match col with
  | Some s => Sql.like (lower s) p
  | None => false
  end.

Definition search_where_in (p1 : string) (a : Row) : bool :=
  Sql.like (lower (name a)) (lower p1)
  || lower_like_in (city a) (lower p1).

Definition search_rank_in (p2 : string) (a : Row) : Z :=
  if Sql.like (lower (name a)) (lower p2) then 1%Z
  else if lower_like_in (city a) (lower p2) then 2%Z
  else 3%Z.

Definition by_rank_name_in (strxfrm : string -> string) (p2 : string)
    (a b : Row) : bool :=
  (search_rank_in p2 a <? search_rank_in p2 b)%Z
  || (search_rank_in p2 a =? search_rank_in p2 b)%Z
     && collate_leb strxfrm (name a) (name b).

Definition searchByName_in (strxfrm : string -> string) (db : Catalog)
    (name : string) (limit : option Z) : result (list Airport) :=
  let limit := dflt 10%Z limit in
  let p1 := "%" ++ name ++ "%" in
  let p2 := name ++ "%" in
  await n <- Sql.bigint limit;
  await rows <-
    Sql.limit n
      (Sql.order_by (by_rank_name_in strxfrm p2)
         (filter (search_where_in p1) db));
  Ok (map (fun a => formatAirport a false) (map (buildGeoQuery false 0 0) rows)).

(** The vocabulary of the specification, with the case of that locale:
    [q] occurs in [s], [q] is at the start of [s], both lower-cased. *)
Definition contains_in (q s : string) : Prop :=
  contains (lower q) (lower s).

Definition starts_with_in (q s : string) : bool :=
  starts_withb (lower q) (lower s).

Definition opt_contains_in (q : string) (s : option string) : Prop :=
  match s with
  | Some s => contains_in q s
  | None => False
  end.

Definition opt_starts_with_in (q : string) (s : option string) : bool :=
  match s with
  | Some s => starts_with_in q s
  | None => false
  end.

(** The rank of the specification: 1 when the name starts with [q], 2 when
    the municipality does and the name does not, 3 otherwise. *)
Definition spec_rank_in (q : string) (a : Airport) : Z :=
  if starts_with_in q (a_name a) then 1%Z
  else if opt_starts_with_in q (a_city a) then 2%Z
  else 3%Z.

(** Rank first, then name. *)
Definition ranked_before_in (strxfrm : string -> string) (q : string)
    (a b : Airport) : Prop :=
  (spec_rank_in q a < spec_rank_in q b)%Z
  \/ (spec_rank_in q a = spec_rank_in q b
      /\ collate_leb strxfrm (a_name a) (a_name b) = true).

(** A row of the catalog mentions [q]: its name or its municipality
    contains it, both lower-cased. *)
Definition mentions_in (q : string) (a : Row) : bool :=
  containsb (lower q) (lower (name a))
  || match city a with
     | Some c => containsb (lower q) (lower c)
     | None => false
     end.
End Locale.

(** ** Sample data *)

Definition facility (code label : string) (lat lon : R)
    (municipality kind : string) : Row :=
  {| icao := code; name := label; latitude := lat; longitude := lon;
     city := Some municipality; country := Some "FR"; elevation := None;
     type := Some kind |}.

Definition LFPG : Row := facility "LFPG" "Paris CDG" 49 (5/2) "Paris" "large_airport".
Definition SSPG : Row := facility "SSPG" "Parana Airport" (-25) (-48) "Paranagua" "small_airport".
Definition LFOH : Row := facility "LFOH" "Le Havre" (99/2) 0 "Octeville" "medium_airport".
Definition LFPI : Row := facility "LFPI" "Issy Heliport" 49 2 "Paris" "heliport".

Definition EQ01 : Row := facility "EQ01" "Equator One" 0 1 "Macapa" "small_airport".

Definition LFOE : Row := facility "LFOE" "Évreux Fauville" 49 (6/5) "Évreux" "medium_airport".

Definition byte_order (s : string) : string := s.

(** [LOWER] under a Unicode locale on UTF-8 text, as far as the letters of
    Latin-1 go: the ASCII capitals, and after the lead byte 195 the second
    byte of a capital from U+00C0 to U+00DE (U+00D7, the multiplication
    sign, is no letter). *)
Fixpoint lower_utf8_from (lead : bool) (s : string) : string :=
  match s with
  | EmptyString => EmptyString
  | String c s' =>
      let n := N_of_ascii c in
      if lead then
        String (if (128 <=? n)%N && (n <=? 158)%N && negb (n =? 151)%N
                then ascii_of_N (n + 32) else c)
          (lower_utf8_from false s')
      else String (Sql.lower_ascii c) (lower_utf8_from (n =? 195)%N s')
  end.

Definition lower_utf8 (s : string) : string := lower_utf8_from false s.

(** The C library at the arguments of the instance in double precision: the
    cosine of 0 and, at the double [radians 8], the doubles nearest to the
    cosine and to the sine.  [acos] is not called there. *)
Module Libm8.
Import PrimFloat.
Local Open Scope float_scope.

Definition two : float := 2.
Definition eight : float := 8.
Definition cos_8 : float := 0x1.fb046a930947ap-1.
Definition sin_8 : float := 0x1.1d06c968d9e19p-3.

Definition cos (x : float) : float := if x =? 0 then 1 else cos_8.
Definition sin (x : float) : float := sin_8.
Definition acos (x : float) : float := x.
End Libm8.

(** * Properties *)

(** ** The SQL operators *)

Local Open Scope R_scope.

Lemma Rleb_true (x y : R) : Sql.Rleb x y = true <-> x <= y.
Proof.
  unfold Sql.Rleb. destruct (Rle_dec x y); split; intro H; auto; discriminate.
Qed.

Lemma Rleb_false (x y : R) : Sql.Rleb x y = false <-> y < x.
Proof.
  unfold Sql.Rleb. destruct (Rle_dec x y); split; intro H;
    try discriminate; try lra; auto.
Qed.

Lemma Rltb_true (x y : R) : Sql.Rltb x y = true <-> x < y.
Proof.
  unfold Sql.Rltb. destruct (Rlt_dec x y); split; intro H; auto; discriminate.
Qed.

Lemma Rltb_false (x y : R) : Sql.Rltb x y = false <-> y <= x.
Proof.
  unfold Sql.Rltb. destruct (Rlt_dec x y); split; intro H;
    try discriminate; try lra; auto.
Qed.

Lemma between_true (x lo hi : R) :
  Sql.between x lo hi = true <-> lo <= x <= hi.
Proof.
  unfold Sql.between. rewrite andb_true_iff, !Rleb_true. tauto.
Qed.

Section OrderByFacts.
Variable A : Type.
Variable leb : A -> A -> bool.

Let le (a b : A) : Prop := leb a b = true.

Lemma insert_perm (x : A) (l : list A) :
  Permutation (x :: l) (Sql.insert leb x l).
Proof.
  induction l as [|y l IH]; simpl.
  - apply Permutation_refl.
  - destruct (leb x y).
    + apply Permutation_refl.
    + eapply perm_trans; [apply perm_swap|].
      apply perm_skip, IH.
Qed.

Lemma order_by_perm (l : list A) : Permutation l (Sql.order_by leb l).
Proof.
  induction l as [|x l IH]; simpl.
  - apply perm_nil.
  - eapply perm_trans; [apply perm_skip, IH | apply insert_perm].
Qed.

Lemma order_by_In (l : list A) (a : A) :
  In a (Sql.order_by leb l) <-> In a l.
Proof.
  split; apply Permutation_in;
    [apply Permutation_sym|]; apply order_by_perm.
Qed.

Lemma order_by_nil (l : list A) : Sql.order_by leb l = [] -> l = [].
Proof.
  intro H. apply Permutation_nil.
  rewrite <- H. apply Permutation_sym, order_by_perm.
Qed.

Hypothesis leb_total : forall a b, leb a b = false -> leb b a = true.
Hypothesis leb_trans :
  forall a b c, leb a b = true -> leb b c = true -> leb a c = true.

Lemma insert_sorted (x : A) (l : list A) :
  StronglySorted le l -> StronglySorted le (Sql.insert leb x l).
Proof.
  induction 1 as [|y l Hl IH Hy]; simpl.
  - constructor; constructor.
  - destruct (leb x y) eqn:E.
    + constructor.
      * constructor; assumption.
      * constructor; [exact E|].
        rewrite Forall_forall in *. intros z Hz.
        eapply leb_trans; [exact E | apply Hy, Hz].
    + constructor; [exact IH|].
      rewrite Forall_forall in *. intros z Hz.
      apply (Permutation_in _ (Permutation_sym (insert_perm x l))) in Hz.
      destruct Hz as [<- | Hz]; [apply leb_total, E | apply Hy, Hz].
Qed.

Lemma order_by_sorted (l : list A) : StronglySorted le (Sql.order_by leb l).
Proof.
  induction l as [|x l IH]; simpl; [constructor | apply insert_sorted, IH].
Qed.
End OrderByFacts.

Section SortedFacts.
Variables A B : Type.
Variable le : A -> A -> Prop.

Lemma firstn_In (n : nat) (l : list A) (a : A) :
  In a (firstn n l) -> In a l.
Proof.
  intro H. rewrite <- (firstn_skipn n l). apply in_or_app. left. exact H.
Qed.

Lemma firstn_sorted (n : nat) (l : list A) :
  StronglySorted le l -> StronglySorted le (firstn n l).
Proof.
  intro H. revert n.
  induction H as [|x l Hl IH Hx]; intros [|n]; simpl; try constructor.
  - apply IH.
  - rewrite Forall_forall in *. intros y Hy.
    apply Hx. eapply firstn_In, Hy.
Qed.


Lemma sorted_weaken (le' : A -> A -> Prop) (l : list A) :
  (forall a b, le a b -> le' a b) ->
  StronglySorted le l -> StronglySorted le' l.
Proof.
  intros Hw. induction 1 as [|x l Hl IH Hx]; constructor.
  - exact IH.
  - eapply Forall_impl; [|exact Hx]. intros y. apply Hw.
Qed.

Lemma map_sorted (g : A -> B) (le' : B -> B -> Prop) (l : list A) :
  (forall a b, le a b -> le' (g a) (g b)) ->
  StronglySorted le l -> StronglySorted le' (map g l).
Proof.
  intros Hg. induction 1 as [|x l Hl IH Hx]; simpl; constructor.
  - exact IH.
  - rewrite Forall_forall in *. intros y Hy.
    apply in_map_iff in Hy. destruct Hy as (a & <- & Ha).
    apply Hg, Hx, Ha.
Qed.
End SortedFacts.

Lemma limit_ok (A : Type) (n : Z) (rows : list A) :
  (0 <= n)%Z -> Sql.limit n rows = Ok (firstn (Z.to_nat n) rows).
Proof.
  intro H. unfold Sql.limit.
  destruct (Z.ltb_spec n 0) as [Hn|Hn]; [lia | reflexivity].
Qed.

Lemma bigint_spec (n : Z) :
  (Sql.bigint n = Ok n /\ (- Sql.bigint_max - 1 <= n <= Sql.bigint_max)%Z)
  \/ ((exists e, Sql.bigint n = Err e)
      /\ (n < - Sql.bigint_max - 1 \/ Sql.bigint_max < n)%Z).
Proof.
  unfold Sql.bigint.
  destruct (Z.ltb_spec n (- Sql.bigint_max - 1));
    destruct (Z.ltb_spec Sql.bigint_max n); simpl; eauto 6.
Qed.

(** ** The geographic queries *)

Lemma by_distance_total (lat lon : R) (a b : Row) :
  by_distance lat lon a b = false -> by_distance lat lon b a = true.
Proof.
  unfold by_distance. rewrite Rleb_false, Rleb_true. lra.
Qed.

Lemma by_distance_trans (lat lon : R) (a b c : Row) :
  by_distance lat lon a b = true -> by_distance lat lon b c = true ->
  by_distance lat lon a c = true.
Proof.
  unfold by_distance. rewrite !Rleb_true. lra.
Qed.

Lemma candidates_sorted (db : Catalog) (lat lon dlat dlon : R)
    (types : list string) :
  StronglySorted (fun a b => row_distance lat lon a <= row_distance lat lon b)
    (candidates db lat lon dlat dlon types).
Proof.
  unfold candidates.
  eapply sorted_weaken;
    [| apply order_by_sorted;
       [apply by_distance_total | apply by_distance_trans]].
  intros a b H. apply Rleb_true, H.
Qed.

Lemma candidates_In (db : Catalog) (lat lon dlat dlon : R)
    (types : list string) (a : Row) :
  In a (candidates db lat lon dlat dlon types) <->
  In a db /\ where_clause lat lon dlat dlon types a = true.
Proof.
  unfold candidates. rewrite order_by_In. apply filter_In.
Qed.

Lemma geo_query_ok (db : Catalog) (lat lon dlat dlon : R)
    (types : list string) (n : Z) :
  (0 <= n)%Z ->
  geo_query db lat lon dlat dlon types n
  = Ok (map (buildGeoQuery true lat lon)
          (firstn (Z.to_nat n) (candidates db lat lon dlat dlon types))).
Proof.
  intro H. unfold geo_query. rewrite limit_ok by exact H. reflexivity.
Qed.

Lemma findNearestAirports_ok (db : Catalog) (lat lon : R) (limit : option Z)
    (maxDistance : option MaxDistance) (types : option (list string)) :
  (0 <= dflt 5%Z limit)%Z ->
  findNearestAirports db lat lon limit maxDistance types
  = Ok (map (fun a => formatAirport a true)
          (filter (within (dflt Infinity maxDistance))
             (map (buildGeoQuery true lat lon)
                (firstn (Z.to_nat (dflt 5%Z limit))
                   (candidates db lat lon
                      (latRange (dflt Infinity maxDistance))
                      (lonRange (dflt Infinity maxDistance) lat)
                      (dflt default_types types)))))).
Proof.
  intro H. unfold findNearestAirports.
  rewrite geo_query_ok by exact H. reflexivity.
Qed.




Lemma findNearestAirport_eq (db : Catalog) (lat lon : R)
    (maxDistance : option MaxDistance) (types : option (list string)) :
  findNearestAirport db lat lon maxDistance types
  = match candidates db lat lon
            (latRange (dflt Infinity maxDistance))
            (lonRange (dflt Infinity maxDistance) lat)
            (dflt default_types types) with
    | [] => Ok None
    | first :: _ =>
        if exceeds (buildGeoQuery true lat lon first)
             (dflt Infinity maxDistance)
        then Ok None
        else Ok (Some (formatAirport (buildGeoQuery true lat lon first) true))
    end.
Proof.
  unfold findNearestAirport.
  rewrite geo_query_ok by lia.
  change (Z.to_nat 1) with 1%nat.
  destruct (candidates _ _ _ _ _ _) as [|first rest]; reflexivity.
Qed.




(** ** The great-circle expression *)

Lemma acos_arg_bound (p1 p2 lat lon : R) :
  -1 <= acos_arg p1 p2 lat lon <= 1.
Proof.
  unfold acos_arg.
  set (a := Sql.radians p1). set (b := Sql.radians lat).
  set (c := Sql.radians lon - Sql.radians p2).
  pose proof (COS_bound c) as Hc.
  pose proof (COS_bound (a - b)) as Hm. rewrite cos_minus in Hm.
  pose proof (COS_bound (a + b)) as Hp. rewrite cos_plus in Hp.
  set (u := cos a * cos b) in *. set (v := sin a * sin b) in *.
  set (x := cos c) in *.
  split; nra.
Qed.

(** ** The great-circle expression in double precision *)

Lemma INR_fact_S (n : nat) : INR (fact (S n)) = INR (S n) * INR (fact n).
Proof. rewrite fact_simpl, mult_INR. reflexivity. Qed.

Lemma radians_8_to_R :
  Float8.to_R (Float8.radians Libm8.eight) = 5030569068109113 / 2 ^ 55.
Proof.
  unfold Float8.to_R.
  replace (FloatOps.Prim2SF (Float8.radians Libm8.eight))
    with (SpecFloat.S754_finite false 5030569068109113 (-55))
    by (vm_compute; reflexivity).
  simpl powerRZ. lra.
Qed.

Lemma cos_8_to_R : Float8.to_R Libm8.cos_8 = 8919541810762874 / 2 ^ 53.
Proof.
  unfold Float8.to_R.
  replace (FloatOps.Prim2SF Libm8.cos_8)
    with (SpecFloat.S754_finite false 8919541810762874 (-53))
    by (vm_compute; reflexivity).
  simpl powerRZ. lra.
Qed.

Lemma sin_8_to_R : Float8.to_R Libm8.sin_8 = 5014239404989977 / 2 ^ 55.
Proof.
  unfold Float8.to_R.
  replace (FloatOps.Prim2SF Libm8.sin_8)
    with (SpecFloat.S754_finite false 5014239404989977 (-55))
    by (vm_compute; reflexivity).
  simpl powerRZ. lra.
Qed.

Ltac taylor_terms H :=
  cbv [sum_f_R0] in H;
  repeat match type of H with
    | context [(2 * ?k + 1)%nat] =>
        let v := eval vm_compute in (2 * k + 1)%nat in
        change (2 * k + 1)%nat with v in H
    | context [(2 * ?k)%nat] =>
        let v := eval vm_compute in (2 * k)%nat in
        change (2 * k)%nat with v in H
    end;
  repeat rewrite INR_fact_S in H;
  change (INR (fact 0)) with 1 in H;
  repeat rewrite S_INR in H;
  change (INR 0) with 0 in H.

(** The two doubles [Libm8.cos_8] and [Libm8.sin_8] are the doubles nearest
    to the cosine and to the sine of the double [radians 8]: they are
    within half a unit in the last place of them (the units are [2^-53]
    and [2^-55]). *)
Lemma libm_nearest_at_8 :
  Rabs (cos (Float8.to_R (Float8.radians Libm8.eight))
        - Float8.to_R Libm8.cos_8) < / 2 * / 2 ^ 53
  /\ Rabs (sin (Float8.to_R (Float8.radians Libm8.eight))
           - Float8.to_R Libm8.sin_8) < / 2 * / 2 ^ 55.
Proof.
  rewrite radians_8_to_R, cos_8_to_R, sin_8_to_R.
  set (a := 5030569068109113 / 2 ^ 55).
  assert (Ha : 0 <= a <= 2) by (unfold a; lra).
  split.
  - assert (Hlo : -2 <= a) by lra.
    pose proof (pre_cos_bound a 2 Hlo (proj2 Ha)) as [Hl Hh].
    unfold cos_approx, cos_term in Hl, Hh.
    change (2 * 2 + 1)%nat with 5%nat in Hl.
    change (2 * (2 + 1))%nat with 6%nat in Hh.
    taylor_terms Hl. taylor_terms Hh.
    subst a. apply Rabs_def1; lra.
  - assert (Hhi : a <= 4) by lra.
    pose proof (pre_sin_bound a 2 (proj1 Ha) Hhi) as [Hl Hh].
    unfold sin_approx, sin_term in Hl, Hh.
    change (2 * 2 + 1)%nat with 5%nat in Hl.
    change (2 * (2 + 1))%nat with 6%nat in Hh.
    taylor_terms Hl. taylor_terms Hh.
    subst a. apply Rabs_def1; lra.
Qed.

Section Float8Facts.
Import PrimFloat.
Local Open Scope float_scope.

(** The cosine and the sine of the C library: exact at 0, and at the double
    [radians 8] the doubles nearest to the cosine and to the sine
    ([libm_nearest_at_8]). *)
Variables cos sin acos : float -> float.
Hypothesis cos_at_0 : cos 0 = 1.
Hypothesis cos_at_8 : cos (Float8.radians 8) = 0x1.fb046a930947ap-1.
Hypothesis sin_at_8 : sin (Float8.radians 8) = 0x1.1d06c968d9e19p-3.

(** C9, at a point where it fails.  For a facility stored at latitude 8 and
    longitude 2 and a query from that very point, the argument of [acos] is
    the double just above 1 (1.0000000000000002): [acos] refuses it with
    "input is out of range" and the statement has no distance. *)
Theorem distance_expr_out_of_range :
  Float8.acos_arg cos sin 8 2 8 2 = 0x1.0000000000001p+0
  /\ (1 <? Float8.acos_arg cos sin 8 2 8 2) = true
  /\ Float8.distance_expr cos sin acos 8 2 8 2
     = Err (StoreError "input is out of range").
Proof.
  assert (H : Float8.acos_arg cos sin 8 2 8 2 = 0x1.0000000000001p+0).
  { unfold Float8.acos_arg.
    replace (Float8.radians 2 - Float8.radians 2) with 0
      by (vm_compute; reflexivity).
    rewrite cos_at_0, cos_at_8, sin_at_8. vm_compute. reflexivity. }
  unfold Float8.distance_expr. rewrite H.
  split; [reflexivity|]. split; vm_compute; reflexivity.
Qed.
End Float8Facts.

Lemma distance_expr_out_of_range_witness :
  Libm8.cos PrimFloat.zero = PrimFloat.one
  /\ Libm8.cos (Float8.radians Libm8.eight) = Libm8.cos_8
  /\ Libm8.sin (Float8.radians Libm8.eight) = Libm8.sin_8
  /\ Float8.distance_expr Libm8.cos Libm8.sin Libm8.acos
       Libm8.eight Libm8.two Libm8.eight Libm8.two
     = Err (StoreError "input is out of range").
Proof.
  assert (H0 : Libm8.cos PrimFloat.zero = PrimFloat.one) by reflexivity.
  assert (H1 : Libm8.cos (Float8.radians Libm8.eight) = Libm8.cos_8)
    by reflexivity.
  assert (H2 : Libm8.sin (Float8.radians Libm8.eight) = Libm8.sin_8)
    by reflexivity.
  split; [exact H0|]. split; [exact H1|]. split; [exact H2|].
  exact (proj2 (proj2 (@distance_expr_out_of_range Libm8.cos Libm8.sin
                         Libm8.acos H0 H1 H2))).
Defined.

(** ** The rectangle *)

Lemma PI_gt_3 : 3 < PI.
Proof. pose proof PI2_3_2. lra. Qed.

(** [Math.PI] is below pi by a little more than 1.2e-16. *)
Lemma PI_around_Math_PI :
  Math_PI + 12 / 10 ^ 17 < PI < Math_PI + 13 / 10 ^ 17.
Proof.
  pose proof (PI_2_3_7_ineq 8) as [Hlo Hhi].
  unfold sum_f_R0, tg_alt, PI_2_3_7_tg, Ratan_seq in Hlo, Hhi.
  unfold Math_PI. simpl in Hlo, Hhi. lra.
Qed.

Lemma Math_PI_bounds : 3141592 / 1000000 < Math_PI < 3141593 / 1000000.
Proof. unfold Math_PI. lra. Qed.


(** The cosine of a latitude [90 - eps], as JavaScript takes it. *)
Lemma cos_near_pole (eps : R) :
  0 <= eps < 180 ->
  0 < cos ((90 - eps) * Math_PI / 180) < eps / 45 + 1 / 10 ^ 16.
Proof.
  intros [Hlo Hhi].
  pose proof PI_around_Math_PI as HPI. pose proof Math_PI_bounds as HM.
  replace ((90 - eps) * Math_PI / 180)
    with (PI / 2 - ((PI - Math_PI) / 2 + eps * Math_PI / 180)) by lra.
  rewrite cos_shift.
  assert (Hx : 0 < (PI - Math_PI) / 2 + eps * Math_PI / 180) by nra.
  split.
  - apply sin_gt_0; nra.
  - pose proof (sin_lt_x _ Hx). nra.
Qed.








(** ** The type clause *)

(** Comparisons between closed numbers. *)
Ltac sql_compare :=
  repeat match goal with
    | |- context [Sql.Rleb ?x ?y] =>
        first [ replace (Sql.Rleb x y) with true
                  by (symmetry; apply Rleb_true; lra)
              | replace (Sql.Rleb x y) with false
                  by (symmetry; apply Rleb_false; lra) ]
    | |- context [Sql.Rltb ?x ?y] =>
        first [ replace (Sql.Rltb x y) with true
                  by (symmetry; apply Rltb_true; lra)
              | replace (Sql.Rltb x y) with false
                  by (symmetry; apply Rltb_false; lra) ]
    end.

Lemma where_clause_split (lat lon dlat dlon : R) (types : list string)
    (a : Row) :
  where_clause lat lon dlat dlon types a
  = in_rectangle lat lon dlat dlon a && typeFilter types a.
Proof. reflexivity. Qed.

Lemma typeFilter_default (a : Row) :
  typeFilter default_types a = true <->
  type a = Some "large_airport"%string
  \/ type a = Some "medium_airport"%string
  \/ type a = Some "small_airport"%string.
Proof.
  unfold typeFilter, default_types, Sql.eq_any. simpl.
  destruct (type a) as [t|].
  - rewrite !orb_true_iff, !String.eqb_eq. split.
    + intros [H | [H | [H | H]]]; try discriminate; subst; auto.
    + intros [[= H] | [[= H] | [= H]]]; auto.
  - split; [discriminate | intros [H | [H | H]]; discriminate].
Qed.

(** C3, as the code has it.  With the empty array as [types] no type
    clause is sent: a facility of any type, or of none, passes, and the
    candidates of both queries are the rows of the rectangle.  With [types]
    omitted the default array applies: a facility passes exactly when its
    type is large_airport, medium_airport or small_airport. *)
Theorem typeFilter_empty_or_omitted (db : Catalog)
    (lat lon dlat dlon : R) :
  (forall a, typeFilter (dflt default_types (Some [])) a = true)
  /\ (forall a,
        In a (candidates db lat lon dlat dlon (dflt default_types (Some [])))
        <-> In a db /\ in_rectangle lat lon dlat dlon a = true)
  /\ (forall a,
        typeFilter (dflt default_types None) a = true <->
        type a = Some "large_airport"%string
        \/ type a = Some "medium_airport"%string
        \/ type a = Some "small_airport"%string)
  /\ (forall a,
        In a (candidates db lat lon dlat dlon (dflt default_types None))
        <-> In a db /\ in_rectangle lat lon dlat dlon a = true
            /\ (type a = Some "large_airport"%string
                \/ type a = Some "medium_airport"%string
                \/ type a = Some "small_airport"%string)).
Proof.
  split; [reflexivity|]. split; [|split].
  - intro a. rewrite candidates_In, where_clause_split.
    simpl. rewrite andb_true_r. tauto.
  - apply typeFilter_default.
  - intro a. rewrite candidates_In, where_clause_split.
    simpl dflt. rewrite andb_true_iff, typeFilter_default. tauto.
Qed.

Lemma LFPI_in_rectangle : in_rectangle 49 2 90 180 LFPI = true.
Proof.
  unfold in_rectangle, Sql.between. simpl. sql_compare. reflexivity.
Qed.

(** C3, as stated, fails for an omitted [types]: a heliport at the query
    point itself is not returned, while it is with the empty array. *)
Lemma heliport_dropped_when_types_omitted :
  findNearestAirports [LFPI] 49 2 None None None = Ok []
  /\ findNearestAirports [LFPI] 49 2 None None (Some [])
     = Ok [formatAirport (buildGeoQuery true 49 2 LFPI) true]
  /\ findNearestAirport [LFPI] 49 2 None None = Ok None.
Proof.
  rewrite findNearestAirport_eq, !findNearestAirports_ok by (simpl; lia).
  unfold candidates. simpl dflt. simpl latRange. simpl lonRange.
  simpl filter. rewrite !where_clause_split, LFPI_in_rectangle.
  repeat split; reflexivity.
Qed.

(** ** Instances *)



Lemma distance_on_equator (lon : R) :
  0 <= lon <= 180 -> distance_expr 0 0 0 lon = 6371 * (lon * PI / 180).
Proof.
  intros Hlon. pose proof PI_RGT_0 as HPI.
  unfold distance_expr, acos_arg, Sql.radians.
  replace (0 * PI / 180) with 0 by lra.
  rewrite cos_0, sin_0.
  replace (1 * 1 * cos (lon * PI / 180 - 0) + 0 * 0)
    with (cos (lon * PI / 180)) by (rewrite Rminus_0_r; lra).
  rewrite acos_cos; [reflexivity | nra].
Qed.

Lemma EQ01_distance : 106 < row_distance 0 0 EQ01 < 142.
Proof.
  unfold row_distance. simpl latitude. simpl longitude.
  rewrite distance_on_equator by lra.
  pose proof PI_gt_3. pose proof PI_4. lra.
Qed.

Lemma EQ01_in_rectangle : in_rectangle 0 0 90 180 EQ01 = true.
Proof.
  unfold in_rectangle, Sql.between. simpl. sql_compare. reflexivity.
Qed.


(** ** Strings *)

Local Open Scope string_scope.

Lemma append_assoc (a b c : string) : (a ++ b) ++ c = a ++ b ++ c.
Proof.
  induction a as [|x a IH]; simpl; [reflexivity | now rewrite IH].
Qed.

Lemma lower_append (a b : string) :
  Sql.lower (a ++ b) = Sql.lower a ++ Sql.lower b.
Proof.
  induction a as [|x a IH]; simpl; [reflexivity | now rewrite IH].
Qed.

Lemma starts_withb_spec (q s : string) :
  starts_withb q s = true <-> starts_with q s.
Proof.
  unfold starts_with. revert s.
  induction q as [|c q IH]; intros s; simpl.
  - split; [intros _; exists s; reflexivity | reflexivity].
  - destruct s as [|d s].
    + split; [discriminate | intros [post H]; discriminate].
    + rewrite andb_true_iff, Ascii.eqb_eq, IH. split.
      * intros [-> [post ->]]. exists post. reflexivity.
      * intros [post [= -> ->]]. split; [reflexivity | exists post; reflexivity].
Qed.

Lemma containsb_spec (q s : string) :
  containsb q s = true <-> contains q s.
Proof.
  unfold contains.
  induction s as [|d s IH]; simpl.
  - rewrite orb_false_r, starts_withb_spec. split.
    + intros [post H]. exists "", post. exact H.
    + intros [[|x pre] [post H]]; [exists post; exact H | discriminate].
  - rewrite orb_true_iff, starts_withb_spec, IH. split.
    + intros [[post H] | [pre [post H]]].
      * exists "", post. exact H.
      * exists (String d pre), post. simpl. now rewrite H.
    + intros [[|x pre] [post H]].
      * left. exists post. exact H.
      * right. simpl in H. injection H as _ H. exists pre, post. exact H.
Qed.

(** ** LIKE *)

Lemma like_empty (s : string) : Sql.like_pattern "" s = true <-> s = "".
Proof.
  destruct s; simpl; split; congruence.
Qed.

Lemma like_percent (p s : string) :
  Sql.like_pattern (String "%" p) s
  = Sql.like_pattern p s
    || match s with
       | EmptyString => false
       | String _ s' => Sql.like_pattern (String "%" p) s'
       end.
Proof.
  destruct s; reflexivity.
Qed.

Lemma like_literal (c : ascii) (p s : string) :
  like_special c = false ->
  Sql.like_pattern (String c p) s
  = match s with
    | EmptyString => false
    | String x s' => Ascii.eqb x c && Sql.like_pattern p s'
    end.
Proof.
  unfold like_special. rewrite !orb_false_iff. intros [[H1 H2] H3].
  simpl. rewrite H1, H2, H3. destruct s; reflexivity.
Qed.

Lemma like_any (s : string) : Sql.like_pattern "%" s = true.
Proof.
  induction s as [|x s IH]; rewrite like_percent; [reflexivity|].
  rewrite IH. apply orb_true_r.
Qed.


(** A pattern without special characters followed by [%] asks for a
    prefix. *)
Lemma like_prefix (q s : string) :
  like_free q = true ->
  Sql.like_pattern (q ++ "%") s = starts_withb q s.
Proof.
  revert s. induction q as [|c q IH]; intros s Hq.
  - apply like_any.
  - simpl in Hq. apply andb_true_iff in Hq. destruct Hq as [Hc Hq].
    apply negb_true_iff in Hc.
    change (String c q ++ "%") with (String c (q ++ "%")).
    rewrite like_literal by exact Hc.
    destruct s as [|d s]; simpl; [reflexivity|].
    rewrite IH by exact Hq. now rewrite Ascii.eqb_sym.
Qed.

(** The same pattern between two [%] asks for an occurrence. *)
Lemma like_infix (q s : string) :
  like_free q = true ->
  Sql.like_pattern ("%" ++ q ++ "%") s = containsb q s.
Proof.
  intro Hq. change ("%" ++ q ++ "%") with (String "%" (q ++ "%")).
  induction s as [|d s IH]; rewrite like_percent, like_prefix by exact Hq.
  - reflexivity.
  - simpl containsb. now rewrite IH.
Qed.

Lemma lower_ascii_special (c : ascii) :
  like_special (Sql.lower_ascii c) = like_special c.
Proof.
  destruct c as [[] [] [] [] [] [] [] []]; reflexivity.
Qed.

Lemma lower_like_free (q : string) :
  like_free (Sql.lower q) = like_free q.
Proof.
  induction q as [|c q IH]; simpl; [reflexivity|].
  now rewrite lower_ascii_special, IH.
Qed.

(** The ASCII lower-casing meets what the text search asks of [LOWER]: it
    leaves the [%] around a text alone and brings in no [LIKE] character. *)
Lemma lower_C_locale (q : string) :
  Sql.lower ("%" ++ q ++ "%") = "%" ++ Sql.lower q ++ "%"
  /\ Sql.lower (q ++ "%") = Sql.lower q ++ "%"
  /\ like_free (Sql.lower q) = like_free q.
Proof.
  rewrite !lower_append. repeat split. apply lower_like_free.
Qed.

(** ** The order of names *)

Lemma string_compare_trans (a b c : string) (o : comparison) :
  String.compare a b = o -> String.compare b c = o -> String.compare a c = o.
Proof.
  revert b c. induction a as [|x a IH]; intros [|y b] [|z c]; simpl;
    try congruence.
  unfold Ascii.compare.
  destruct (N.compare_spec (N_of_ascii x) (N_of_ascii y)) as [Exy|Lxy|Gxy];
    destruct (N.compare_spec (N_of_ascii y) (N_of_ascii z)) as [Eyz|Lyz|Gyz];
    destruct (N.compare_spec (N_of_ascii x) (N_of_ascii z)) as [Exz|Lxz|Gxz];
    try lia; try congruence.
  apply IH.
Qed.

Lemma string_leb_trans (a b c : string) :
  String.leb a b = true -> String.leb b c = true -> String.leb a c = true.
Proof.
  unfold String.leb.
  destruct (String.compare a b) eqn:Eab; try discriminate;
    destruct (String.compare b c) eqn:Ebc; try discriminate; intros _ _.
  - apply String.compare_eq_iff in Eab. subst b. now rewrite Ebc.
  - apply String.compare_eq_iff in Eab. subst b. now rewrite Ebc.
  - apply String.compare_eq_iff in Ebc. subst c. now rewrite Eab.
  - now rewrite (string_compare_trans _ _ _ Eab Ebc).
Qed.

Section Collation.
Variable strxfrm : string -> string.

Lemma collate_leb_total (s t : string) :
  collate_leb strxfrm s t = false -> collate_leb strxfrm t s = true.
Proof.
  unfold collate_leb. intro H.
  destruct (String.leb_total (strxfrm s) (strxfrm t)); congruence.
Qed.

Lemma collate_leb_trans (s t u : string) :
  collate_leb strxfrm s t = true -> collate_leb strxfrm t u = true ->
  collate_leb strxfrm s u = true.
Proof.
  unfold collate_leb. apply string_leb_trans.
Qed.

Lemma by_rank_name_spec (p2 : string) (a b : Row) :
  by_rank_name strxfrm p2 a b = true <->
  (search_rank p2 a < search_rank p2 b)%Z
  \/ (search_rank p2 a = search_rank p2 b
      /\ collate_leb strxfrm (name a) (name b) = true).
Proof.
  unfold by_rank_name.
  rewrite orb_true_iff, andb_true_iff, Z.ltb_lt, Z.eqb_eq. tauto.
Qed.

Lemma by_rank_name_total (p2 : string) (a b : Row) :
  by_rank_name strxfrm p2 a b = false -> by_rank_name strxfrm p2 b a = true.
Proof.
  intro H. apply by_rank_name_spec.
  unfold by_rank_name in H.
  apply orb_false_iff in H. destruct H as [Hlt H].
  apply Z.ltb_ge in Hlt.
  apply andb_false_iff in H. destruct H as [H | H].
  - apply Z.eqb_neq in H. left. lia.
  - destruct (Z.eq_dec (search_rank p2 a) (search_rank p2 b)) as [E | E].
    + right. split; [congruence | apply collate_leb_total, H].
    + left. lia.
Qed.

Lemma by_rank_name_trans (p2 : string) (a b c : Row) :
  by_rank_name strxfrm p2 a b = true -> by_rank_name strxfrm p2 b c = true ->
  by_rank_name strxfrm p2 a c = true.
Proof.
  rewrite !by_rank_name_spec.
  intros [H1 | [H1 N1]] [H2 | [H2 N2]]; try (left; lia).
  right. split; [congruence | eapply collate_leb_trans; eassumption].
Qed.
End Collation.

(** ** The text search *)

Lemma searchByName_ok (strxfrm : string -> string) (db : Catalog)
    (q : string) (limit : option Z) :
  (0 <= dflt 10%Z limit)%Z ->
  searchByName strxfrm db q limit
  = Ok (map (fun a => formatAirport (buildGeoQuery false 0 0 a) false)
          (firstn (Z.to_nat (dflt 10%Z limit))
             (Sql.order_by (by_rank_name strxfrm (q ++ "%"))
                (filter (search_where ("%" ++ q ++ "%")) db)))).
Proof.
  intro H. unfold searchByName. rewrite limit_ok by exact H.
  simpl. now rewrite map_map.
Qed.

Lemma mentions_in_spec (lower : string -> string) (q : string) (a : Row) :
  mentions_in lower q a = true <->
  contains_in lower q (name a) \/ opt_contains_in lower q (city a).
Proof.
  unfold mentions_in, contains_in, opt_contains_in.
  rewrite orb_true_iff, containsb_spec.
  destruct (city a) as [c|].
  - unfold contains_in. now rewrite containsb_spec.
  - split; [intros [H | H]; [auto | discriminate] | tauto].
Qed.

Section LocaleFacts.
Variable lower : string -> string.
Variable strxfrm : string -> string.

Lemma by_rank_name_in_spec (p2 : string) (a b : Row) :
  by_rank_name_in lower strxfrm p2 a b = true <->
  (search_rank_in lower p2 a < search_rank_in lower p2 b)%Z
  \/ (search_rank_in lower p2 a = search_rank_in lower p2 b
      /\ collate_leb strxfrm (name a) (name b) = true).
Proof.
  unfold by_rank_name_in.
  rewrite orb_true_iff, andb_true_iff, Z.ltb_lt, Z.eqb_eq. tauto.
Qed.

Lemma by_rank_name_in_total (p2 : string) (a b : Row) :
  by_rank_name_in lower strxfrm p2 a b = false ->
  by_rank_name_in lower strxfrm p2 b a = true.
Proof.
  intro H. apply by_rank_name_in_spec.
  unfold by_rank_name_in in H.
  apply orb_false_iff in H. destruct H as [Hlt H].
  apply Z.ltb_ge in Hlt.
  apply andb_false_iff in H. destruct H as [H | H].
  - apply Z.eqb_neq in H. left. lia.
  - destruct (Z.eq_dec (search_rank_in lower p2 a)
                (search_rank_in lower p2 b)) as [E | E].
    + right. split; [congruence | apply collate_leb_total, H].
    + left. lia.
Qed.

Lemma by_rank_name_in_trans (p2 : string) (a b c : Row) :
  by_rank_name_in lower strxfrm p2 a b = true ->
  by_rank_name_in lower strxfrm p2 b c = true ->
  by_rank_name_in lower strxfrm p2 a c = true.
Proof.
  rewrite !by_rank_name_in_spec.
  intros [H1 | [H1 N1]] [H2 | [H2 N2]]; try (left; lia).
  right. split; [congruence | eapply collate_leb_trans; eassumption].
Qed.

Lemma searchByName_in_ok (db : Catalog) (q : string) (limit : option Z) :
  (0 <= dflt 10%Z limit <= Sql.bigint_max)%Z ->
  searchByName_in lower strxfrm db q limit
  = Ok (map plain
          (firstn (Z.to_nat (dflt 10%Z limit))
             (Sql.order_by (by_rank_name_in lower strxfrm (q ++ "%"))
                (filter (search_where_in lower ("%" ++ q ++ "%")) db)))).
Proof.
  intro H. unfold searchByName_in.
  destruct (bigint_spec (dflt 10%Z limit)) as [[Hb _] | [_ Hbad]];
    [|unfold Sql.bigint_max in *; lia].
  rewrite Hb. unfold bind at 1. rewrite limit_ok by lia.
  simpl. now rewrite map_map.
Qed.

Section Text.
Variable q : string.
Hypothesis lower_free : like_free (lower q) = true.

Lemma search_where_in_mentions (a : Row) :
  lower ("%" ++ q ++ "%") = "%" ++ lower q ++ "%" ->
  search_where_in lower ("%" ++ q ++ "%") a = mentions_in lower q a.
Proof.
  intro Hp. unfold search_where_in, mentions_in, lower_like_in, Sql.like.
  rewrite Hp, like_infix by exact lower_free.
  destruct (city a) as [c|]; [|reflexivity].
  now rewrite like_infix by exact lower_free.
Qed.

Lemma search_rank_in_spec (a : Row) :
  lower (q ++ "%") = lower q ++ "%" ->
  search_rank_in lower (q ++ "%") a = spec_rank_in lower q (plain a).
Proof.
  intro Hp.
  unfold search_rank_in, spec_rank_in, lower_like_in, Sql.like,
    opt_starts_with_in, starts_with_in.
  simpl. rewrite Hp, like_prefix by exact lower_free.
  destruct (city a) as [c|]; [|reflexivity].
  now rewrite like_prefix by exact lower_free.
Qed.
End Text.
End LocaleFacts.

(** [searchByName] is the text search of a database of the "C" locale, as
    long as the limit is a [bigint]. *)
Lemma searchByName_in_C (strxfrm : string -> string) (db : Catalog)
    (q : string) (limit : option Z) :
  (- Sql.bigint_max - 1 <= dflt 10%Z limit <= Sql.bigint_max)%Z ->
  searchByName_in Sql.lower strxfrm db q limit
  = searchByName strxfrm db q limit.
Proof.
  intro H. unfold searchByName_in.
  destruct (bigint_spec (dflt 10%Z limit)) as [[Hb _] | [_ Hbad]];
    [|lia].
  rewrite Hb. reflexivity.
Qed.

(** C7, as the code has it.  Let the [LOWER] of the database leave the [%]
    around the query text [q] alone, and let the lower-cased [q] be without
    the characters [%], [_] and backslash.  Then for a limit from 0 to the
    largest [bigint], [searchByName] answers with facilities of the catalog
    whose name or municipality contains [q], both lower-cased by the
    database, ordered by rank (1 when the name starts with [q], 2 when the
    municipality does and the name does not, 3 otherwise, all lower-cased by
    the database) and, within one rank, by name in the order of the
    database collation. *)
Theorem searchByName_ranked (lower strxfrm : string -> string)
    (db : Catalog) (q : string) (limit : option Z) :
  lower ("%" ++ q ++ "%") = "%" ++ lower q ++ "%" ->
  lower (q ++ "%") = lower q ++ "%" ->
  like_free (lower q) = true ->
  (0 <= dflt 10%Z limit <= Sql.bigint_max)%Z ->
  exists l,
    searchByName_in lower strxfrm db q limit = Ok l
    /\ (forall x, In x l ->
          (exists a, In a db
             /\ x = formatAirport (buildGeoQuery false 0 0 a) false)
          /\ (contains_in lower q (a_name x)
              \/ opt_contains_in lower q (a_city x)))
    /\ StronglySorted (ranked_before_in lower strxfrm q) l.
Proof.
  intros Hinfix Hprefix Hq Hlimit.
  eexists. split; [apply searchByName_in_ok, Hlimit|]. split.
  - intros x Hx. apply in_map_iff in Hx. destruct Hx as (a & <- & Ha).
    apply firstn_In, order_by_In, filter_In in Ha. destruct Ha as [Ha Hw].
    split; [exists a; auto|].
    rewrite (@search_where_in_mentions lower q Hq a Hinfix) in Hw.
    apply (@mentions_in_spec lower q a) in Hw. exact Hw.
  - eapply map_sorted;
      [| apply firstn_sorted, order_by_sorted;
         [apply by_rank_name_in_total | apply by_rank_name_in_trans]].
    intros a b H. apply by_rank_name_in_spec in H.
    unfold ranked_before_in.
    rewrite <- !(@search_rank_in_spec lower q Hq _ Hprefix).
    exact H.
Qed.

Lemma searchByName_ranked_witness :
  lower_utf8 ("%" ++ "évreux" ++ "%") = "%" ++ lower_utf8 "évreux" ++ "%"
  /\ lower_utf8 ("évreux" ++ "%") = lower_utf8 "évreux" ++ "%"
  /\ like_free (lower_utf8 "évreux") = true
  /\ (0 <= dflt 10%Z None <= Sql.bigint_max)%Z
  /\ exists l,
       searchByName_in lower_utf8 byte_order [LFOH; LFOE; LFPG] "évreux" None
       = Ok l
       /\ (forall x, In x l ->
             (exists a, In a [LFOH; LFOE; LFPG]
                /\ x = formatAirport (buildGeoQuery false 0 0 a) false)
             /\ (contains_in lower_utf8 "évreux" (a_name x)
                 \/ opt_contains_in lower_utf8 "évreux" (a_city x)))
       /\ StronglySorted (ranked_before_in lower_utf8 byte_order "évreux") l.
Proof.
  assert (H1 : lower_utf8 ("%" ++ "évreux" ++ "%")
               = "%" ++ lower_utf8 "évreux" ++ "%") by reflexivity.
  assert (H2 : lower_utf8 ("évreux" ++ "%") = lower_utf8 "évreux" ++ "%")
    by reflexivity.
  assert (H3 : like_free (lower_utf8 "évreux") = true) by reflexivity.
  assert (H4 : (0 <= dflt 10%Z None <= Sql.bigint_max)%Z)
    by (unfold Sql.bigint_max; simpl; lia).
  split; [exact H1|]. split; [exact H2|]. split; [exact H3|].
  split; [exact H4|].
  exact (@searchByName_ranked lower_utf8 byte_order [LFOH; LFOE; LFPG]
           "évreux" None H1 H2 H3 H4).
Defined.

(** Under a Unicode locale the text "évreux" finds "Évreux Fauville"; under
    the "C" locale, whose [LOWER] leaves the capital alone, it does not. *)
Example search_evreux :
  searchByName_in lower_utf8 byte_order [LFOH; LFOE; LFPG] "évreux" None
  = Ok [plain LFOE]
  /\ searchByName byte_order [LFOH; LFOE; LFPG] "évreux" None = Ok [].
Proof. split; reflexivity. Qed.

(** The example of the specification: "par" finds the two names that start
    with it, in name order, then the facility whose municipality does, and
    not "Le Havre". *)
Example search_par :
  searchByName byte_order [LFOH; LFPG; SSPG; LFPI] "par" None
  = Ok (map (fun a => formatAirport (buildGeoQuery false 0 0 a) false)
          [SSPG; LFPG; LFPI]).
Proof. reflexivity. Qed.

(** C7, as stated, fails for a text with a [LIKE] character: "h_v" finds
    "Le Havre" in Octeville, and occurs in neither. *)
Lemma searchByName_underscore :
  searchByName byte_order [LFOH; LFPG] "h_v" None
  = Ok [formatAirport (buildGeoQuery false 0 0 LFOH) false]
  /\ ~ contains_ci "h_v" (name LFOH)
  /\ ~ opt_contains_ci "h_v" (city LFOH).
Proof.
  split; [reflexivity|].
  split; intro H; apply containsb_spec in H; vm_compute in H; discriminate.
Qed.

(** C10.  The query text goes into the two [LIKE] patterns as it is: there
    are a catalog and a text containing [%] for which [searchByName]
    answers with a facility whose name and municipality do not contain the
    text, with or without regard to case. *)
Theorem searchByName_wildcard :
  exists (db : Catalog) (q : string),
    contains "%" q
    /\ forall strxfrm, exists x,
         searchByName strxfrm db q None = Ok [x]
         /\ ~ contains q (a_name x)
         /\ ~ contains_ci q (a_name x)
         /\ (forall municipality, a_city x = Some municipality ->
               ~ contains q municipality /\ ~ contains_ci q municipality).
Proof.
  exists [LFOH; LFPG], "L%e".
  split; [apply containsb_spec; reflexivity|].
  intro strxfrm.
  exists (formatAirport (buildGeoQuery false 0 0 LFOH) false).
  split; [reflexivity|].
  split; [intro H; apply containsb_spec in H; vm_compute in H; discriminate|].
  split; [intro H; apply containsb_spec in H; vm_compute in H; discriminate|].
  intros municipality [= <-].
  split; intro H; apply containsb_spec in H; vm_compute in H; discriminate.
Qed.

(** ** The empty text *)

Lemma filter_all (A : Type) (f : A -> bool) (l : list A) :
  (forall a, f a = true) -> filter f l = l.
Proof.
  intro H. induction l as [|x l IH]; simpl; [reflexivity|].
  now rewrite H, IH.
Qed.

Lemma order_by_ext (A : Type) (leb leb' : A -> A -> bool) (l : list A) :
  (forall a b, leb a b = leb' a b) ->
  Sql.order_by leb l = Sql.order_by leb' l.
Proof.
  intro H.
  assert (Hins : forall x m, Sql.insert leb x m = Sql.insert leb' x m).
  { intros x m. induction m as [|y m IH]; simpl; [reflexivity|].
    now rewrite H, IH. }
  induction l as [|x l IH]; simpl; [reflexivity|].
  now rewrite IH, Hins.
Qed.




(** ** The lookup by identifier *)

(** The identifier is compared ignoring case. *)
Example findByICAO_case :
  findByICAO [LFOH; LFPG] "lfpg" = findByICAO [LFOH; LFPG] "LFPG"
  /\ findByICAO [LFOH; LFPG] "lfpg"
     = Ok (Some (formatAirport (buildGeoQuery false 0 0 LFPG) false))
  /\ findByICAO [LFOH; LFPG] "EGLL" = Ok None.
Proof. repeat split. Qed.

(** * Further properties of the service *)

Local Open Scope R_scope.

(** ** Cutting a sorted list *)

Section Cut.
Variable A : Type.
Variable key : A -> R.
Variable bound : R.

Let le (a b : A) : Prop := key a <= key b.
Let near (a : A) : bool := Sql.Rleb (key a) bound.

Lemma filter_far (l : list A) :
  (forall a, In a l -> bound < key a) -> filter near l = [].
Proof.
  induction l as [|x l IH]; intro H; simpl; [reflexivity|].
  replace (near x) with false
    by (symmetry; apply Rleb_false, H; left; reflexivity).
  apply IH. intros a Ha. apply H. right. exact Ha.
Qed.

(** On a list in increasing order of [key], keeping the elements up to
    [bound] and keeping the first [n] elements commute. *)
Lemma filter_firstn_sorted (n : nat) (l : list A) :
  StronglySorted le l ->
  filter near (firstn n l) = firstn n (filter near l).
Proof.
  intro H. revert n. induction H as [|x l Hl IH Hx]; intros [|n]; simpl;
    try reflexivity.
  destruct (near x) eqn:E.
  - simpl. now rewrite IH.
  - apply Rleb_false in E.
    assert (Hfar : forall a, In a l -> bound < key a).
    { intros a Ha. rewrite Forall_forall in Hx.
      specialize (Hx a Ha). unfold le in Hx. lra. }
    rewrite (filter_far l Hfar). apply filter_far.
    intros a Ha. apply Hfar. eapply firstn_In, Ha.
Qed.
End Cut.



(** ** The k nearest *)

Lemma filter_map_swap (A B : Type) (f : B -> bool) (g : A -> B)
    (l : list A) :
  filter f (map g l) = map g (filter (fun a => f (g a)) l).
Proof.
  induction l as [|x l IH]; simpl; [reflexivity|].
  destruct (f (g x)); simpl; now rewrite IH.
Qed.

Lemma within_row (lat lon : R) (maxDistance : MaxDistance) (a : Row) :
  within maxDistance (buildGeoQuery true lat lon a)
  = match maxDistance with
    | Infinity => true
    | Km d => Sql.Rleb (row_distance lat lon a) d
    end.
Proof. destruct maxDistance; reflexivity. Qed.


(** [LIMIT] is applied before the radius test, and nothing is lost by it:
    the answer is made of the first [limit] of all the rows that pass both
    the [WHERE] clause and the radius test. *)
Lemma findNearestAirports_limit_last (db : Catalog) (lat lon : R)
    (limit : option Z) (maxDistance : option MaxDistance)
    (types : option (list string)) :
  (0 <= dflt 5%Z limit)%Z ->
  findNearestAirports db lat lon limit maxDistance types
  = Ok (map (fun a => formatAirport (buildGeoQuery true lat lon a) true)
          (firstn (Z.to_nat (dflt 5%Z limit))
             (filter
                (fun a => within (dflt Infinity maxDistance)
                            (buildGeoQuery true lat lon a))
                (candidates db lat lon
                   (latRange (dflt Infinity maxDistance))
                   (lonRange (dflt Infinity maxDistance) lat)
                   (dflt default_types types))))).
Proof.
  intro Hlimit. rewrite findNearestAirports_ok by exact Hlimit.
  rewrite filter_map_swap, map_map. f_equal. f_equal.
  set (C := candidates _ _ _ _ _ _).
  set (n := Z.to_nat _).
  destruct (dflt Infinity maxDistance) as [|d].
  - rewrite !filter_all by reflexivity. reflexivity.
  - apply (filter_firstn_sorted (row_distance lat lon) d n).
    apply candidates_sorted.
Qed.

Lemma order_by_length (A : Type) (leb : A -> A -> bool) (l : list A) :
  List.length (Sql.order_by leb l) = List.length l.
Proof.
  symmetry. apply Permutation_length, order_by_perm.
Qed.


Lemma filter_perm (A : Type) (f : A -> bool) (l l' : list A) :
  Permutation l l' -> Permutation (filter f l) (filter f l').
Proof.
  induction 1 as [|x l l' H IH|x y l|l l' l'' H IH H' IH']; simpl.
  - apply perm_nil.
  - destruct (f x); [apply perm_skip|]; exact IH.
  - destruct (f x), (f y); try apply Permutation_refl. apply perm_swap.
  - eapply perm_trans; eassumption.
Qed.

Lemma filter_filter (A : Type) (f g : A -> bool) (l : list A) :
  filter g (filter f l) = filter (fun a => f a && g a) l.
Proof.
  induction l as [|x l IH]; simpl; [reflexivity|].
  destruct (f x); simpl; [destruct (g x)|]; now rewrite IH.
Qed.

Lemma in_radius_length (db : Catalog) (lat lon : R)
    (maxDistance : MaxDistance) (types : list string) :
  List.length
    (filter (fun a => within maxDistance (buildGeoQuery true lat lon a))
       (candidates db lat lon (latRange maxDistance)
          (lonRange maxDistance lat) types))
  = List.length (filter (qualifies lat lon maxDistance types) db).
Proof.
  unfold qualifies. rewrite <- filter_filter.
  apply Permutation_length, filter_perm, Permutation_sym, order_by_perm.
Qed.

(** X1.  For a limit from 0 to the largest [bigint], an answer of
    [findNearestAirports] has at most [limit] facilities, and exactly as
    many as the smaller of [limit] and the number of catalog rows that pass
    the [WHERE] clause and the radius test: [LIMIT] comes before the radius
    test and loses nothing.  A limit of zero gives the empty list. *)
Theorem findNearestAirports_count (db : Catalog) (lat lon : R)
    (limit : option Z) (maxDistance : option MaxDistance)
    (types : option (list string)) (l : list Airport) :
  (0 <= dflt 5%Z limit <= Sql.bigint_max)%Z ->
  findNearestAirports db lat lon limit maxDistance types = Ok l ->
  List.length l
  = Nat.min (Z.to_nat (dflt 5%Z limit))
      (List.length
         (filter (qualifies lat lon (dflt Infinity maxDistance)
                    (dflt default_types types)) db))
  /\ (Z.of_nat (List.length l) <= dflt 5%Z limit)%Z
  /\ (dflt 5%Z limit = 0%Z -> l = []).
Proof.
  intros [Hlimit _] Hl.
  rewrite findNearestAirports_limit_last in Hl by exact Hlimit.
  injection Hl as <-.
  rewrite length_map, length_firstn, in_radius_length.
  split; [reflexivity|]. split; [lia|].
  intros ->. reflexivity.
Qed.

Lemma findNearestAirports_count_witness :
  (0 <= dflt 5%Z (Some 2%Z) <= Sql.bigint_max)%Z
  /\ exists l,
       findNearestAirports [LFPG; LFOH; LFPI; SSPG] 49 2 (Some 2%Z) None None
       = Ok l
       /\ (Z.of_nat (List.length l) <= 2)%Z.
Proof.
  assert (H : (0 <= dflt 5%Z (Some 2%Z) <= Sql.bigint_max)%Z)
    by (unfold Sql.bigint_max; simpl; lia).
  split; [exact H|].
  eexists. split.
  - apply findNearestAirports_limit_last. simpl. lia.
  - apply (@findNearestAirports_count [LFPG; LFOH; LFPI; SSPG] 49 2
             (Some 2%Z) None None _ H).
    apply findNearestAirports_limit_last. simpl. lia.
Defined.







Lemma exceeds_within (maxDistance : MaxDistance) (lat lon : R) (a : Row) :
  exceeds (buildGeoQuery true lat lon a) maxDistance
  = negb (within maxDistance (buildGeoQuery true lat lon a)).
Proof.
  destruct maxDistance as [|d]; simpl; [reflexivity|].
  unfold Sql.Rltb, Sql.Rleb.
  destruct (Rlt_dec d (row_distance lat lon a)),
           (Rle_dec (row_distance lat lon a) d); try reflexivity; lra.
Qed.

(** X4.  For every radius, finite or not, and every type array,
    [findNearestAirport] answers with the first element of what
    [findNearestAirports] answers for [limit = 1] ([null] for the empty
    list): the second radius test of [findNearestAirport] decides as the
    [filter] of [findNearestAirports] does. *)
Theorem findNearestAirport_first_of_limit_one (db : Catalog) (lat lon : R)
    (maxDistance : option MaxDistance) (types : option (list string)) :
  findNearestAirport db lat lon maxDistance types
  = first_of (findNearestAirports db lat lon (Some 1%Z) maxDistance types).
Proof.
  rewrite findNearestAirport_eq.
  rewrite findNearestAirports_ok by (simpl; lia).
  simpl dflt. change (Z.to_nat 1) with 1%nat.
  destruct (candidates _ _ _ _ _ _) as [|first rest]; [reflexivity|].
  rewrite exceeds_within. simpl firstn. simpl map. simpl filter.
  destruct (within _ _); reflexivity.
Qed.

(** X5.  When [findNearestAirport] answers with a facility, it is a row of
    the catalog that passes the [WHERE] clause and the radius test, it
    carries its distance, and no catalog row that passes the [WHERE] clause
    is nearer. *)
Theorem findNearestAirport_nearest (db : Catalog) (lat lon : R)
    (maxDistance : option MaxDistance) (types : option (list string))
    (x : Airport) :
  findNearestAirport db lat lon maxDistance types = Ok (Some x) ->
  exists a,
    In a db
    /\ x = formatAirport (buildGeoQuery true lat lon a) true
    /\ a_distance x = Some (row_distance lat lon a)
    /\ qualifies lat lon (dflt Infinity maxDistance)
         (dflt default_types types) a = true
    /\ forall b, In b db ->
         where_clause lat lon (latRange (dflt Infinity maxDistance))
           (lonRange (dflt Infinity maxDistance) lat)
           (dflt default_types types) b = true ->
         row_distance lat lon a <= row_distance lat lon b.
Proof.
  rewrite findNearestAirport_eq.
  pose proof (candidates_sorted db lat lon
                (latRange (dflt Infinity maxDistance))
                (lonRange (dflt Infinity maxDistance) lat)
                (dflt default_types types)) as Hs.
  pose proof (candidates_In db lat lon
                (latRange (dflt Infinity maxDistance))
                (lonRange (dflt Infinity maxDistance) lat)
                (dflt default_types types)) as Hin.
  destruct (candidates _ _ _ _ _ _) as [|first rest]; [discriminate|].
  rewrite exceeds_within.
  destruct (within _ _) eqn:Hw; simpl; [|discriminate].
  intros [= <-]. exists first.
  assert (Hf : In first db /\ where_clause lat lon
                 (latRange (dflt Infinity maxDistance))
                 (lonRange (dflt Infinity maxDistance) lat)
                 (dflt default_types types) first = true)
    by (apply Hin; left; reflexivity).
  destruct Hf as [Hdb Hwhere].
  split; [exact Hdb|]. split; [reflexivity|]. split; [reflexivity|]. split.
  - unfold qualifies. now rewrite Hwhere, Hw.
  - intros b Hb Hbw.
    assert (Hb' : In b (first :: rest)) by (apply Hin; auto).
    destruct Hb' as [<- | Hb']; [lra|].
    inversion Hs as [|? ? _ Hall]; subst.
    rewrite Forall_forall in Hall. apply Hall, Hb'.
Qed.

Lemma EQ01_found :
  findNearestAirport [LFPI; EQ01] 0 0 None None
  = Ok (Some (formatAirport (buildGeoQuery true 0 0 EQ01) true)).
Proof.
  rewrite findNearestAirport_eq.
  unfold candidates. simpl dflt. simpl latRange. simpl lonRange.
  simpl filter. rewrite !where_clause_split, EQ01_in_rectangle.
  replace (typeFilter default_types LFPI) with false by reflexivity.
  rewrite andb_false_r. reflexivity.
Qed.

Lemma findNearestAirport_nearest_witness :
  findNearestAirport [LFPI; EQ01] 0 0 None None
  = Ok (Some (formatAirport (buildGeoQuery true 0 0 EQ01) true))
  /\ exists a,
       In a [LFPI; EQ01]
       /\ formatAirport (buildGeoQuery true 0 0 EQ01) true
          = formatAirport (buildGeoQuery true 0 0 a) true.
Proof.
  split; [exact EQ01_found|].
  destruct (findNearestAirport_nearest [LFPI; EQ01] 0 0 None None EQ01_found)
    as (a & Ha & Hx & _).
  exists a. auto.
Defined.

(** ** The distance expression as a distance *)

Lemma PI_bounds : 314 / 100 < PI < 315 / 100.
Proof.
  pose proof (PI_2_3_7_ineq 1) as [Hlo Hhi].
  unfold sum_f_R0, tg_alt, PI_2_3_7_tg, Ratan_seq in Hlo, Hhi.
  simpl in Hlo, Hhi. lra.
Qed.

Lemma acos_decreasing (x y : R) :
  -1 <= x -> x <= y -> y <= 1 -> acos y <= acos x.
Proof.
  intros Hx Hxy Hy.
  destruct (Rle_or_lt (acos y) (acos x)) as [H | H]; [exact H|].
  pose proof (acos_bound x) as Bx. pose proof (acos_bound y) as By.
  pose proof (cos_decreasing_1 (acos x) (acos y)
                (proj1 Bx) (proj2 Bx) (proj1 By) (proj2 By) H) as Hc.
  rewrite !cos_acos in Hc by lra. lra.
Qed.

(** The distance is at least the distance along the meridian. *)
Lemma distance_ge_meridian (lat0 lon0 lat lon : R) :
  -90 <= lat0 <= 90 -> -90 <= lat <= 90 ->
  6371 * (PI / 180) * (lat - lat0) <= distance_expr lat0 lon0 lat lon
  /\ 6371 * (PI / 180) * (lat0 - lat) <= distance_expr lat0 lon0 lat lon.
Proof.
  intros H0 H1. pose proof PI_RGT_0 as HPI.
  pose proof (acos_arg_bound lat0 lon0 lat lon) as Harg.
  unfold distance_expr, acos_arg in *. unfold Sql.radians in *.
  set (a := lat0 * PI / 180) in *. set (b := lat * PI / 180) in *.
  set (c := lon * PI / 180 - lon0 * PI / 180) in *.
  assert (Ha : 0 <= cos a) by (apply cos_ge_0; unfold a; nra).
  assert (Hb : 0 <= cos b) by (apply cos_ge_0; unfold b; nra).
  pose proof (COS_bound c) as Hc.
  assert (Hle : cos a * cos b * cos c + sin a * sin b <= cos (b - a)).
  { rewrite cos_minus.
    assert (Hab0 : 0 <= cos a * cos b) by (apply Rmult_le_pos; assumption).
    assert (Hc1 : 0 <= 1 - cos c) by lra.
    pose proof (Rmult_le_pos _ _ Hab0 Hc1). lra. }
  pose proof (COS_bound (b - a)) as Hba.
  pose proof (acos_decreasing (proj1 Harg) Hle (proj2 Hba)) as Hd.
  assert (Hab : acos (cos (b - a)) = Rabs (b - a)).
  { unfold Rabs. destruct (Rcase_abs (b - a)) as [Hneg | Hpos].
    - rewrite <- cos_neg. apply acos_cos. unfold a, b in *. nra.
    - apply acos_cos. unfold a, b in *. nra. }
  rewrite Hab in Hd.
  pose proof (Rle_abs (b - a)) as Habs1.
  pose proof (Rle_abs (- (b - a))) as Habs2. rewrite Rabs_Ropp in Habs2.
  unfold a, b in *. split; nra.
Qed.

(** X7.  For latitudes between the poles, the latitude band of the [WHERE]
    clause is wide enough: a facility whose distance is at most the radius
    is never outside [lat - r/111, lat + r/111]. *)
Theorem latitude_band_sound (lat lon r : R) (a : Row) :
  -90 <= lat <= 90 -> -90 <= latitude a <= 90 ->
  row_distance lat lon a <= r ->
  Sql.between (latitude a) (lat - latRange (Km r)) (lat + latRange (Km r))
  = true.
Proof.
  intros Hlat Ha Hd. unfold row_distance in Hd.
  destruct (distance_ge_meridian lon (longitude a) Hlat Ha) as [H1 H2].
  pose proof PI_bounds as HPI.
  apply between_true. simpl latRange.
  assert (K : 111 <= 6371 * (PI / 180)) by lra.
  assert (Hup : 111 * (latitude a - lat) <= r).
  { destruct (Rle_or_lt (latitude a - lat) 0); nra. }
  assert (Hdn : 111 * (lat - latitude a) <= r).
  { destruct (Rle_or_lt (lat - latitude a) 0); nra. }
  lra.
Qed.

Lemma latitude_band_sound_witness :
  -90 <= 0 <= 90 /\ -90 <= latitude EQ01 <= 90
  /\ row_distance 0 0 EQ01 <= 200
  /\ Sql.between (latitude EQ01) (0 - latRange (Km 200))
       (0 + latRange (Km 200)) = true.
Proof.
  assert (H1 : -90 <= 0 <= 90) by lra.
  assert (H2 : -90 <= latitude EQ01 <= 90) by (simpl; lra).
  assert (H3 : row_distance 0 0 EQ01 <= 200)
    by (pose proof EQ01_distance; lra).
  split; [exact H1|]. split; [exact H2|]. split; [exact H3|].
  exact (@latitude_band_sound 0 0 200 EQ01 H1 H2 H3).
Defined.

(** ** What the rectangle leaves out *)

Lemma filter_none (A : Type) (f : A -> bool) (l : list A) :
  (forall a, In a l -> f a = false) -> filter f l = [].
Proof.
  induction l as [|x l IH]; intro H; simpl; [reflexivity|].
  rewrite (H x) by (left; reflexivity).
  apply IH. intros a Ha. apply H. right. exact Ha.
Qed.

Lemma between_false (x lo hi : R) :
  x < lo \/ hi < x -> Sql.between x lo hi = false.
Proof.
  intro H. unfold Sql.between. apply andb_false_iff.
  destruct H as [H | H]; [left | right]; apply Rleb_false, H.
Qed.

Lemma no_candidates (db : Catalog) (lat lon dlat dlon : R)
    (types : list string) :
  (forall a, In a db -> in_rectangle lat lon dlat dlon a = false) ->
  candidates db lat lon dlat dlon types = [].
Proof.
  intro H. unfold candidates. rewrite filter_none; [reflexivity|].
  intros a Ha. rewrite where_clause_split, (H a Ha). reflexivity.
Qed.



Lemma acos_arg_turn (p1 p2 lat lon : R) :
  acos_arg p1 p2 lat (lon + 360) = acos_arg p1 p2 lat lon.
Proof.
  unfold acos_arg, Sql.radians.
  replace ((lon + 360) * PI / 180 - p2 * PI / 180)
    with (lon * PI / 180 - p2 * PI / 180 + 2 * INR 1 * PI) by (simpl; lra).
  now rewrite cos_period.
Qed.

Lemma distance_along_equator (lon0 lon : R) :
  0 <= lon - lon0 <= 180 ->
  distance_expr 0 lon0 0 lon = 6371 * ((lon - lon0) * PI / 180).
Proof.
  intros Hlon. pose proof PI_RGT_0 as HPI.
  unfold distance_expr, acos_arg, Sql.radians.
  replace (0 * PI / 180) with 0 by lra.
  rewrite cos_0, sin_0.
  replace (1 * 1 * cos (lon * PI / 180 - lon0 * PI / 180) + 0 * 0)
    with (cos ((lon - lon0) * PI / 180)).
  - rewrite acos_cos; [reflexivity | nra].
  - replace ((lon - lon0) * PI / 180)
      with (lon * PI / 180 - lon0 * PI / 180) by lra.
    lra.
Qed.

Lemma lonRange_equator (r : R) : lonRange (Km r) 0 = r / 111.
Proof.
  unfold lonRange. replace (0 * Math_PI / 180) with 0 by lra.
  rewrite cos_0. f_equal. lra.
Qed.

(** X9.  The rectangle does not wrap around the 180th meridian.  For every
    radius up to 20000 km there are a query point on it and a facility, both
    with valid coordinates, less than the radius apart, that neither query
    finds. *)
Theorem antimeridian_gap (r : R) :
  0 < r <= 20000 ->
  exists (a : Row) (lon : R),
    -180 <= lon <= 180
    /\ -90 <= latitude a <= 90 /\ -180 <= longitude a <= 180
    /\ row_distance 0 lon a < r
    /\ findNearestAirports [a] 0 lon None (Some (Km r)) (Some []) = Ok []
    /\ findNearestAirport [a] 0 lon (Some (Km r)) (Some []) = Ok None.
Proof.
  intros [Hr0 Hr1].
  set (eps := Rmin 1 (r / 200)).
  assert (Heps1 : eps <= 1) by apply Rmin_l.
  assert (Heps2 : eps <= r / 200) by apply Rmin_r.
  assert (Heps0 : 0 < eps) by (apply Rmin_glb_lt; lra).
  exists (facility "" "" 0 (-180 + eps) "" ""), 180.
  split; [lra|]. split; [simpl; lra|]. split; [simpl; lra|].
  assert (Hd : row_distance 0 180 (facility "" "" 0 (-180 + eps) "" "") < r).
  { unfold row_distance, distance_expr. simpl latitude. simpl longitude.
    rewrite <- acos_arg_turn.
    replace (-180 + eps + 360) with (180 + eps) by lra.
    change (6371 * acos (acos_arg 0 180 0 (180 + eps)))
      with (distance_expr 0 180 0 (180 + eps)).
    rewrite distance_along_equator by lra.
    pose proof PI_bounds. nra. }
  split; [exact Hd|].
  assert (Hc : candidates [facility "" "" 0 (-180 + eps) "" ""] 0 180
                 (latRange (Km r)) (lonRange (Km r) 0) [] = []).
  { apply no_candidates. intros a [<- | []].
    unfold in_rectangle. apply andb_false_iff. right.
    apply between_false. left. rewrite lonRange_equator. simpl longitude.
    lra. }
  split.
  - rewrite findNearestAirports_ok by (simpl; lia).
    simpl dflt. now rewrite Hc.
  - rewrite findNearestAirport_eq. simpl dflt. now rewrite Hc.
Qed.

Lemma antimeridian_gap_witness :
  0 < 100 <= 20000
  /\ exists (a : Row) (lon : R),
       -180 <= lon <= 180
       /\ -90 <= latitude a <= 90 /\ -180 <= longitude a <= 180
       /\ row_distance 0 lon a < 100
       /\ findNearestAirports [a] 0 lon None (Some (Km 100)) (Some []) = Ok []
       /\ findNearestAirport [a] 0 lon (Some (Km 100)) (Some []) = Ok None.
Proof.
  assert (H : 0 < 100 <= 20000) by lra.
  split; [exact H | exact (antimeridian_gap H)].
Defined.

(** ** The lookup by identifier, continued *)

Local Open Scope string_scope.

Lemma findByICAO_eq (db : Catalog) (code : string) :
  findByICAO db code = Ok (option_map plain (hd_error (filter (icao_is code) db))).
Proof.
  unfold findByICAO. rewrite limit_ok by lia.
  change (Z.to_nat 1) with 1%nat. fold (icao_is code).
  destruct (filter (icao_is code) db) as [|first rest]; reflexivity.
Qed.

Lemma hd_error_filter (A : Type) (f : A -> bool) (l : list A) :
  (hd_error (filter f l) = None <-> forall a, In a l -> f a = false)
  /\ (forall x, hd_error (filter f l) = Some x -> In x l /\ f x = true).
Proof.
  split.
  - split.
    + intros H a Ha. destruct (f a) eqn:E; [|reflexivity].
      assert (Hin : In a (filter f l)) by (apply filter_In; auto).
      destruct (filter f l); [destruct Hin | discriminate].
    + intro H. now rewrite filter_none.
  - intros x H.
    assert (Hin : In x (filter f l)).
    { destruct (filter f l); [discriminate|]. injection H as ->. now left. }
    apply filter_In in Hin. exact Hin.
Qed.

(** X10.  An answer of [findByICAO] is [null] exactly when no identifier of
    the catalog equals the code up to case; otherwise it is a row of the
    catalog whose identifier equals the code up to case, without a
    distance.  A code that differs only in case gets the same answer. *)
Theorem findByICAO_spec (db : Catalog) (code : string)
    (answer : option Airport) :
  findByICAO db code = Ok answer ->
  (answer = None <->
   forall a, In a db -> Sql.lower (icao a) <> Sql.lower code)
  /\ (forall x, answer = Some x ->
        (exists a, In a db /\ x = plain a)
        /\ Sql.lower (a_icao x) = Sql.lower code
        /\ a_distance x = None)
  /\ (forall code', Sql.lower code' = Sql.lower code ->
        findByICAO db code' = Ok answer).
Proof.
  rewrite findByICAO_eq. intros [= <-].
  destruct (hd_error_filter (icao_is code) db) as [Hnone Hsome].
  split; [|split].
  - split.
    + intros H. destruct (hd_error _) eqn:E; [discriminate|].
      intros a Ha. apply String.eqb_neq. apply Hnone; auto.
    + intro H.
      replace (hd_error (filter (icao_is code) db)) with (@None Row);
        [reflexivity|].
      symmetry. apply Hnone. intros a Ha. apply String.eqb_neq, H, Ha.
  - intros x H. destruct (hd_error _) as [a|] eqn:E; [|discriminate].
    injection H as <-. destruct (Hsome a eq_refl) as [Ha Hf].
    split; [exists a; auto|]. split; [|reflexivity].
    apply String.eqb_eq, Hf.
  - intros code' Hc. rewrite findByICAO_eq. unfold icao_is.
    now rewrite Hc.
Qed.

Lemma findByICAO_spec_witness :
  findByICAO [LFOH; LFPG; SSPG; LFPI] "lfpg" = Ok (Some (plain LFPG))
  /\ findByICAO [LFOH; LFPG; SSPG; LFPI] "LfPg" = Ok (Some (plain LFPG)).
Proof.
  assert (H : findByICAO [LFOH; LFPG; SSPG; LFPI] "lfpg"
              = Ok (Some (plain LFPG))) by reflexivity.
  split; [exact H|].
  apply (proj2 (proj2 (@findByICAO_spec _ _ _ H))). reflexivity.
Defined.

Lemma first_with_code (db : Catalog) (a : Row) (code : string) :
  case_unique db -> In a db ->
  Sql.lower code = Sql.lower (icao a) ->
  hd_error (filter (icao_is code) db) = Some a.
Proof.
  intros Hu Ha Hc.
  destruct (hd_error_filter (icao_is code) db) as [Hnone Hsome].
  destruct (hd_error _) as [b|] eqn:E.
  - destruct (Hsome b eq_refl) as [Hb Hf].
    apply String.eqb_eq in Hf. rewrite Hc in Hf.
    now rewrite (Hu b a Hb Ha Hf).
  - assert (H : icao_is code a = false) by (apply Hnone; auto).
    unfold icao_is in H. rewrite Hc, String.eqb_refl in H. discriminate.
Qed.

(** X11.  A stored row is found again under its own identifier, in any
    case, provided no other row has the same identifier up to case. *)
Theorem findByICAO_finds_stored (db : Catalog) (a : Row) (code : string) :
  case_unique db -> In a db ->
  Sql.lower code = Sql.lower (icao a) ->
  findByICAO db code = Ok (Some (plain a)).
Proof.
  intros Hu Ha Hc. rewrite findByICAO_eq.
  rewrite (@first_with_code db a code Hu Ha Hc). reflexivity.
Qed.

Lemma sample_case_unique : case_unique [LFOH; LFPG; SSPG; LFPI].
Proof.
  intros a b Ha Hb H. simpl in Ha, Hb.
  repeat match goal with
         | H : _ \/ _ |- _ => destruct H as [<- | H]
         | H : False |- _ => destruct H
         end;
    try reflexivity; vm_compute in H; discriminate.
Qed.

Lemma findByICAO_finds_stored_witness :
  case_unique [LFOH; LFPG; SSPG; LFPI]
  /\ In SSPG [LFOH; LFPG; SSPG; LFPI]
  /\ Sql.lower "sSpG" = Sql.lower (icao SSPG)
  /\ findByICAO [LFOH; LFPG; SSPG; LFPI] "sSpG" = Ok (Some (plain SSPG)).
Proof.
  assert (H2 : In SSPG [LFOH; LFPG; SSPG; LFPI])
    by (right; right; left; reflexivity).
  assert (H3 : Sql.lower "sSpG" = Sql.lower (icao SSPG)) by reflexivity.
  split; [exact sample_case_unique|]. split; [exact H2|].
  split; [exact H3|].
  exact (@findByICAO_finds_stored _ _ _ sample_case_unique H2 H3).
Defined.

(** ** The text search, continued *)

(** X12.  Let the [LOWER] of the database leave the [%] around the text
    alone, and let the lower-cased text be without [LIKE] characters.  Then
    for a limit from 0 to the largest [bigint], [searchByName] answers with
    as many facilities as the smaller of the limit and the number of rows
    that mention the text; when the limit is not reached, every row that
    mentions the text is in the answer. *)
Theorem searchByName_complete (lower strxfrm : string -> string)
    (db : Catalog) (q : string) (limit : option Z) :
  lower ("%" ++ q ++ "%") = "%" ++ lower q ++ "%" ->
  like_free (lower q) = true ->
  (0 <= dflt 10%Z limit <= Sql.bigint_max)%Z ->
  exists l,
    searchByName_in lower strxfrm db q limit = Ok l
    /\ List.length l
       = Nat.min (Z.to_nat (dflt 10%Z limit))
           (List.length (filter (mentions_in lower q) db))
    /\ ((List.length (filter (mentions_in lower q) db)
         <= Z.to_nat (dflt 10%Z limit))%nat ->
        forall a, In a db -> mentions_in lower q a = true -> In (plain a) l).
Proof.
  intros Hinfix Hq Hlimit.
  eexists. split; [apply searchByName_in_ok, Hlimit|].
  rewrite (filter_ext _ _
             (fun a => @search_where_in_mentions lower q Hq a Hinfix)).
  split.
  - now rewrite length_map, length_firstn, order_by_length.
  - intros Hfew a Ha Hm.
    rewrite firstn_all2 by now rewrite order_by_length.
    apply in_map_iff. exists a. split; [reflexivity|].
    apply order_by_In, filter_In. auto.
Qed.

Lemma searchByName_complete_witness :
  Sql.lower ("%" ++ "par" ++ "%") = "%" ++ Sql.lower "par" ++ "%"
  /\ like_free (Sql.lower "par") = true
  /\ (0 <= dflt 10%Z None <= Sql.bigint_max)%Z
  /\ exists l,
       searchByName_in Sql.lower byte_order [LFOH; LFPG; SSPG; LFPI] "par"
         None = Ok l
       /\ List.length l
          = Nat.min (Z.to_nat (dflt 10%Z None))
              (List.length
                 (filter (mentions_in Sql.lower "par")
                    [LFOH; LFPG; SSPG; LFPI])).
Proof.
  assert (H1 : Sql.lower ("%" ++ "par" ++ "%")
               = "%" ++ Sql.lower "par" ++ "%") by reflexivity.
  assert (H2 : like_free (Sql.lower "par") = true) by reflexivity.
  assert (H3 : (0 <= dflt 10%Z None <= Sql.bigint_max)%Z)
    by (unfold Sql.bigint_max; simpl; lia).
  split; [exact H1|]. split; [exact H2|]. split; [exact H3|].
  destruct (@searchByName_complete Sql.lower byte_order
              [LFOH; LFPG; SSPG; LFPI] "par" None H1 H2 H3)
    as (l & Hl & Hn & _).
  exists l. auto.
Defined.

(** ** Identifiers in the answers *)








(** * Properties of the HTTP layer *)

Local Open Scope R_scope.

(** ** Rounding for display *)







(** ** The middleware *)

Local Open Scope string_scope.

Lemma truthy_spec (v : option string) :
  truthy v = true <-> exists s, v = Some s /\ s <> "".
Proof.
  destruct v as [s|]; simpl.
  - rewrite negb_true_iff, String.eqb_neq. split.
    + intro H. exists s. auto.
    + intros (s' & [= <-] & H). exact H.
  - split; [discriminate | intros (s & H & _); discriminate].
Qed.

Lemma number_in_range (n : number) (lo hi : R) :
  isNaN n = false -> number_lt n lo = false -> number_gt n hi = false ->
  exists x, n = Num x /\ (lo <= x <= hi)%R.
Proof.
  destruct n as [|x| |]; simpl; try discriminate.
  intros _ Hlo Hhi. apply Rltb_false in Hlo, Hhi. exists x. auto.
Qed.

(** X16.  [validateCoordinates] lets a request through exactly when both
    parameters are present and not empty and [parseFloat] reads them as
    numbers with the latitude in [[-90, 90]] and the longitude in
    [[-180, 180]]; the coordinates it attaches are those two finite numbers:
    never [NaN], never an infinity.  Every other request is answered with
    status 400. *)
Theorem validateCoordinates_spec (parseFloat : string -> number)
    (lat lon : option string) :
  (forall latitude longitude,
     validateCoordinates parseFloat lat lon = inr (latitude, longitude) <->
     exists s t x y,
       lat = Some s /\ lon = Some t /\ s <> "" /\ t <> ""
       /\ parseFloat s = Num x /\ parseFloat t = Num y
       /\ latitude = Num x /\ longitude = Num y
       /\ (-90 <= x <= 90)%R /\ (-180 <= y <= 180)%R)
  /\ (forall refusal,
        validateCoordinates parseFloat lat lon = inl refusal ->
        status refusal = 400%Z).
Proof.
  unfold validateCoordinates. split.
  - intros latitude longitude. split.
    + destruct (truthy lat) eqn:Elat; [|discriminate].
      destruct (truthy lon) eqn:Elon; [|discriminate].
      apply truthy_spec in Elat, Elon.
      destruct Elat as (s & -> & Hs). destruct Elon as (t & -> & Ht).
      simpl.
      destruct (isNaN (parseFloat s)) eqn:Ns; [discriminate|].
      destruct (isNaN (parseFloat t)) eqn:Nt; [discriminate|].
      simpl.
      destruct (number_lt (parseFloat s) (-90)) eqn:L1; [discriminate|].
      destruct (number_gt (parseFloat s) 90) eqn:G1; [discriminate|].
      destruct (number_lt (parseFloat t) (-180)) eqn:L2; [discriminate|].
      destruct (number_gt (parseFloat t) 180) eqn:G2; [discriminate|].
      simpl. intros [= <- <-].
      destruct (number_in_range _ _ _ Ns L1 G1) as (x & Hx & Bx).
      destruct (number_in_range _ _ _ Nt L2 G2) as (y & Hy & By).
      exists s, t, x, y. repeat split; auto; lra.
    + intros (s & t & x & y & -> & -> & Hs & Ht & Px & Py & -> & -> & Bx & By).
      apply String.eqb_neq in Hs, Ht. simpl. rewrite Hs, Ht. simpl.
      rewrite Px, Py. simpl.
      replace (Sql.Rltb x (-90)) with false
        by (symmetry; apply Rltb_false; lra).
      replace (Sql.Rltb 90 x) with false
        by (symmetry; apply Rltb_false; lra).
      replace (Sql.Rltb y (-180)) with false
        by (symmetry; apply Rltb_false; lra).
      replace (Sql.Rltb 180 y) with false
        by (symmetry; apply Rltb_false; lra).
      reflexivity.
  - intros refusal.
    destruct (negb (truthy lat) || negb (truthy lon)); [now intros [= <-]|].
    destruct (isNaN _ || isNaN _); [now intros [= <-]|].
    destruct (_ || _ || _ || _); [now intros [= <-] | discriminate].
Qed.

(** X17.  The type parameter of the two geographic routes.  [type=all]
    lets every facility through, of any type or of none; any other
    non-empty value lets through exactly the facilities of that very type
    (so a value in another case, or an unknown one, lets nothing through);
    an absent or empty parameter stands for the three airport types. *)
Theorem requested_types_filter (a : Row) :
  typeFilter (requested_types (Some "all")) a = true
  /\ (forall t, t <> "" -> t <> "all" ->
        (typeFilter (requested_types (Some t)) a = true <-> type a = Some t))
  /\ requested_types None = default_types
  /\ requested_types (Some "") = default_types.
Proof.
  split; [reflexivity|]. split; [|split; reflexivity].
  intros t Ht Hall. unfold requested_types. simpl.
  apply String.eqb_neq in Ht, Hall. rewrite Ht, Hall. simpl.
  unfold typeFilter, Sql.eq_any. simpl.
  destruct (type a) as [u|]; simpl.
  - rewrite orb_false_r, String.eqb_eq. split; congruence.
  - split; discriminate.
Qed.

(** ** The search route *)

Lemma checkDataLoaded_spec (db : Catalog) :
  (checkDataLoaded db = None <-> db <> [])
  /\ (forall refusal, checkDataLoaded db = Some refusal ->
        db = [] /\ status refusal = 503%Z).
Proof.
  unfold checkDataLoaded, isDataLoaded. destruct db as [|a db]; simpl.
  - split; [split; [discriminate | congruence]|].
    intros refusal [= <-]. auto.
  - split; [split; [discriminate | reflexivity]|]. discriminate.
Qed.

Lemma searchByName_err (strxfrm : string -> string) (db : Catalog)
    (q : string) (n : Z) :
  (n < 0)%Z -> exists e, searchByName strxfrm db q (Some n) = Err e.
Proof.
  intro H. unfold searchByName, Sql.limit. simpl.
  destruct (Z.ltb_spec n 0); [|lia]. simpl. eauto.
Qed.

Ltac status_leaf :=
  repeat match goal with
    | |- _ /\ _ => split
    | |- _ <-> _ => split
    | |- _ -> _ => intro
    | |- forall _, _ => intro
    | H : _ /\ _ |- _ => destruct H
    | H : _ \/ _ |- _ => destruct H
    | H : exists _, _ |- _ => destruct H
    | H : Some _ = Some _ |- _ => injection H as H; subst
    | H : Facilities _ _ = Facilities _ _ |- _ => injection H as H; subst
    end;
  try discriminate; try congruence; try lia; try reflexivity;
  try tauto; eauto 6.

(** X18.  The statuses of [/icao/search].  An empty catalog is answered
    with 503.  On a loaded catalog the status is 400 exactly when both
    [code] and [name] are absent or empty; 500 exactly when the text search
    is asked with a limit that [parseInt] does not read, or reads as
    negative or as more than the largest [bigint]; and in every other case
    200 or 404.  A list in a body is never empty and comes with its
    length. *)
Theorem icao_search_status (parseInt : string -> option Z)
    (strxfrm : string -> string) (db : Catalog)
    (code name limit : option string) :
  let response := icao_search parseInt strxfrm db code name limit in
  (db = [] -> status response = 503%Z)
  /\ (db <> [] ->
      (status response = 400%Z <->
       truthy code = false /\ truthy name = false)
      /\ (status response = 500%Z <->
          truthy code = false /\ truthy name = true
          /\ (requested_limit parseInt limit = None
              \/ exists n, requested_limit parseInt limit = Some n
                   /\ (n < 0 \/ Sql.bigint_max < n)%Z))
      /\ (status response = 200%Z \/ status response = 400%Z
          \/ status response = 404%Z \/ status response = 500%Z))
  /\ (forall count data, body response = Facilities count data ->
        status response = 200%Z /\ data <> [] /\ count = List.length data).
Proof.
  intro response. subst response. unfold icao_search.
  destruct (checkDataLoaded_spec db) as [Hloaded Hrefused].
  destruct (checkDataLoaded db) as [refusal|] eqn:E.
  - destruct (Hrefused refusal eq_refl) as [-> Hs].
    unfold checkDataLoaded in E. simpl in E. injection E as <-. simpl.
    split; [reflexivity|]. split; [congruence | discriminate].
  - assert (Hdb : db <> []) by (apply Hloaded; reflexivity).
    split; [congruence|].
    destruct (truthy code) eqn:Ec; destruct (truthy name) eqn:En; simpl.
    + rewrite findByICAO_eq. destruct (hd_error _); simpl; status_leaf.
    + rewrite findByICAO_eq. destruct (hd_error _); simpl; status_leaf.
    + destruct (requested_limit parseInt limit) as [n|] eqn:El; simpl.
      * destruct (bigint_spec n) as [[Hb Hn] | [[e Hb] Hn]]; rewrite Hb;
          simpl.
        -- destruct (Z.ltb_spec n 0) as [Hneg | Hpos].
           ++ destruct (searchByName_err strxfrm db (template name) Hneg)
                as [e He].
              rewrite He. simpl. status_leaf.
           ++ rewrite searchByName_ok by exact Hpos.
              destruct (map _ _) as [|x l] eqn:Em; simpl; status_leaf.
        -- assert (Hbad : (n < 0 \/ Sql.bigint_max < n)%Z)
             by (unfold Sql.bigint_max in *; lia).
           clear Hn. status_leaf.
      * status_leaf.
    + status_leaf.
Qed.

Lemma icao_search_code (parseInt : string -> option Z)
    (strxfrm : string -> string) (db : Catalog)
    (name limit : option string) (c : string) :
  db <> [] -> c <> "" ->
  icao_search parseInt strxfrm db (Some c) name limit
  = match hd_error (filter (icao_is c) db) with
    | Some a => mkResponse 200 (Facility (plain a))
    | None =>
        mkResponse 404
          (Failure ("Aucun aéroport trouvé avec le code ICAO: " ++ c))
    end.
Proof.
  intros Hdb Hc. unfold icao_search.
  replace (checkDataLoaded db) with (@None Response)
    by (symmetry; apply checkDataLoaded_spec, Hdb).
  apply String.eqb_neq in Hc. simpl. rewrite Hc. simpl.
  rewrite findByICAO_eq. destruct (hd_error _); reflexivity.
Qed.

(** X19.  [/icao/search] with a code.  On a loaded catalog a non-empty
    [code] decides alone: [name] and [limit] are not looked at.  The answer
    is 404 when no identifier equals the code up to case, and otherwise 200
    with a row of the catalog whose identifier equals the code up to case:
    the row itself when no two identifiers are equal up to case. *)
Theorem icao_search_by_code (parseInt : string -> option Z)
    (strxfrm : string -> string) (db : Catalog)
    (name limit : option string) (c : string) :
  db <> [] -> c <> "" ->
  let response := icao_search parseInt strxfrm db (Some c) name limit in
  response = icao_search parseInt strxfrm db (Some c) None None
  /\ ((forall a, In a db -> Sql.lower (icao a) <> Sql.lower c) ->
      response
      = mkResponse 404
          (Failure ("Aucun aéroport trouvé avec le code ICAO: " ++ c)))
  /\ ((exists a, In a db /\ Sql.lower (icao a) = Sql.lower c) ->
      exists a, In a db /\ Sql.lower (icao a) = Sql.lower c
        /\ response = mkResponse 200 (Facility (plain a)))
  /\ (case_unique db ->
      forall a, In a db -> Sql.lower (icao a) = Sql.lower c ->
        response = mkResponse 200 (Facility (plain a))).
Proof.
  intros Hdb Hc response. subst response.
  rewrite !icao_search_code by assumption.
  destruct (hd_error_filter (icao_is c) db) as [Hnone Hsome].
  split; [reflexivity|]. split; [|split].
  - intro Hno.
    replace (hd_error (filter (icao_is c) db)) with (@None Row);
      [reflexivity|].
    symmetry. apply Hnone. intros a Ha. apply String.eqb_neq, Hno, Ha.
  - intros (a & Ha & Heq).
    destruct (hd_error _) as [b|] eqn:E.
    + destruct (Hsome b eq_refl) as [Hb Hf]. apply String.eqb_eq in Hf.
      exists b. auto.
    + assert (H : icao_is c a = false) by (apply Hnone; auto).
      unfold icao_is in H. rewrite Heq, String.eqb_refl in H. discriminate.
  - intros Hu a Ha Heq.
    now rewrite (@first_with_code db a c Hu Ha (eq_sym Heq)).
Qed.

Lemma icao_search_by_code_witness :
  [LFOH; LFPG; SSPG; LFPI] <> [] /\ "lfpg" <> ""
  /\ icao_search (fun _ => None) byte_order [LFOH; LFPG; SSPG; LFPI]
       (Some "lfpg") (Some "Havre") (Some "zero")
     = mkResponse 200 (Facility (plain LFPG)).
Proof.
  assert (H1 : [LFOH; LFPG; SSPG; LFPI] <> []) by discriminate.
  assert (H2 : "lfpg" <> "") by discriminate.
  split; [exact H1|]. split; [exact H2|].
  apply (proj2 (proj2 (proj2
           (@icao_search_by_code (fun _ => None) byte_order
              [LFOH; LFPG; SSPG; LFPI] (Some "Havre") (Some "zero") "lfpg"
              H1 H2)))).
  - exact sample_case_unique.
  - right; left; reflexivity.
  - reflexivity.
Defined.

(** X20.  [/icao/search] with a text.  On a loaded catalog, without a
    code, for a non-empty text and a limit that is absent or read as an
    integer from 0 to the largest [bigint], the handler passes on what
    [searchByName] answers with for that text and that limit: 404 when the
    list is empty, as it is for the limit 0, and otherwise 200 with the
    list and its length, which is at most the limit; every element is a row
    of the catalog. *)
Theorem icao_search_by_name (parseInt : string -> option Z)
    (strxfrm : string -> string) (db : Catalog)
    (code limit : option string) (q : string) (n : Z) (l : list Airport) :
  db <> [] -> truthy code = false -> q <> "" ->
  requested_limit parseInt limit = Some n ->
  (0 <= n <= Sql.bigint_max)%Z ->
  searchByName strxfrm db q (Some n) = Ok l ->
  let response := icao_search parseInt strxfrm db code (Some q) limit in
  (List.length l <= Z.to_nat n)%nat
  /\ (n = 0%Z -> l = [])
  /\ (forall x, In x l -> exists a, In a db /\ x = plain a)
  /\ (l = [] ->
      response
      = mkResponse 404 (Failure ("Aucun aéroport trouvé pour: " ++ q)))
  /\ (l <> [] -> response = mkResponse 200 (Facilities (List.length l) l)).
Proof.
  intros Hdb Hcode Hq Hlimit Hn Hl response. subst response.
  unfold icao_search.
  replace (checkDataLoaded db) with (@None Response)
    by (symmetry; apply checkDataLoaded_spec, Hdb).
  apply String.eqb_neq in Hq. rewrite Hcode. simpl truthy. rewrite Hq.
  simpl. rewrite Hlimit.
  destruct (bigint_spec n) as [[Hb _] | [_ Hbad]];
    [|unfold Sql.bigint_max in *; lia].
  rewrite Hb. simpl. rewrite Hl.
  rewrite searchByName_ok in Hl by (simpl; lia).
  injection Hl as Hl. simpl dflt in Hl.
  assert (Hlen : (List.length l <= Z.to_nat n)%nat).
  { rewrite <- Hl, length_map, length_firstn. lia. }
  split; [exact Hlen|]. split; [|split; [|split]].
  - intros ->. apply length_zero_iff_nil. simpl in Hlen. lia.
  - intros x Hx. rewrite <- Hl in Hx. apply in_map_iff in Hx.
    destruct Hx as (a & <- & Ha).
    apply firstn_In, order_by_In, filter_In in Ha.
    exists a. split; [apply Ha | reflexivity].
  - intros ->. reflexivity.
  - intros Hne. destruct l as [|x l']; [contradiction | reflexivity].
Qed.

Lemma icao_search_by_name_witness :
  [LFOH; LFPG; SSPG; LFPI] <> [] /\ truthy None = false /\ "par" <> ""
  /\ requested_limit (fun _ => Some 2%Z) (Some "2") = Some 2%Z
  /\ (0 <= 2 <= Sql.bigint_max)%Z
  /\ searchByName byte_order [LFOH; LFPG; SSPG; LFPI] "par" (Some 2%Z)
     = Ok [plain SSPG; plain LFPG]
  /\ icao_search (fun _ => Some 2%Z) byte_order [LFOH; LFPG; SSPG; LFPI]
       None (Some "par") (Some "2")
     = mkResponse 200 (Facilities 2 [plain SSPG; plain LFPG]).
Proof.
  assert (H1 : [LFOH; LFPG; SSPG; LFPI] <> []) by discriminate.
  assert (H2 : truthy None = false) by reflexivity.
  assert (H3 : "par" <> "") by discriminate.
  assert (H5 : requested_limit (fun _ => Some 2%Z) (Some "2") = Some 2%Z)
    by reflexivity.
  assert (H6 : (0 <= 2 <= Sql.bigint_max)%Z)
    by (unfold Sql.bigint_max; lia).
  assert (H7 : searchByName byte_order [LFOH; LFPG; SSPG; LFPI] "par"
                 (Some 2%Z) = Ok [plain SSPG; plain LFPG]) by reflexivity.
  repeat (split; [assumption|]).
  apply (@icao_search_by_name (fun _ => Some 2%Z) byte_order
           [LFOH; LFPG; SSPG; LFPI] None (Some "2") "par" 2
           [plain SSPG; plain LFPG] H1 H2 H3 H5 H6 H7).
  discriminate.
Defined.

(** * Limits and radii at their edges *)

Local Open Scope R_scope.

Lemma sorted_perm_unique (A : Type) (R : A -> A -> Prop) (l l' : list A) :
  (forall a b, In a l -> In b l -> R a b -> R b a -> a = b) ->
  Permutation l l' -> StronglySorted R l -> StronglySorted R l' -> l = l'.
Proof.
  revert l'. induction l as [|x t IH]; intros l' Hanti HP HS HS'.
  - apply Permutation_nil in HP. now subst.
  - destruct l' as [|y t'];
      [apply Permutation_sym, Permutation_nil in HP; discriminate|].
    apply StronglySorted_inv in HS. destruct HS as [HSt Hx].
    apply StronglySorted_inv in HS'. destruct HS' as [HSt' Hy].
    rewrite Forall_forall in Hx, Hy.
    assert (Hyl : In y (x :: t))
      by (eapply Permutation_in;
          [apply Permutation_sym, HP | left; reflexivity]).
    assert (Exy : x = y).
    { assert (Hxl : In x (y :: t'))
        by (eapply Permutation_in; [exact HP | left; reflexivity]).
      destruct Hxl as [-> | Hxt']; [reflexivity|].
      destruct Hyl as [-> | Hyt]; [reflexivity|].
      apply Hanti; [left; reflexivity | right; exact Hyt | auto | auto]. }
    subst y. f_equal. apply Permutation_cons_inv in HP.
    apply IH; auto.
    intros a b Ha Hb. apply Hanti; right; assumption.
Qed.

Lemma string_leb_antisym (s t : string) :
  String.leb s t = true -> String.leb t s = true -> s = t.
Proof.
  unfold String.leb. pose proof (String.compare_antisym s t) as H.
  destruct (String.compare s t) eqn:E; destruct (String.compare t s) eqn:E';
    simpl in H; try discriminate; intros _ _;
    first [now apply String.compare_eq_iff
          | symmetry; now apply String.compare_eq_iff].
Qed.

(** X21.  Raising the limit only appends, when the sort keys tell the rows
    apart.  If no two rows of the catalog are at the same distance from
    the point, the rows [ORDER BY distance] may return are in one order
    only, and for [0 <= k <= k'] up to the largest [bigint] an answer of
    [findNearestAirports] for the limit [k] is the first [k] elements of an
    answer for [k'], everything else being equal.  The same holds for
    [searchByName] if no two rows have names with the same sort key. *)
Theorem answers_grow_with_limit (strxfrm : string -> string) (db : Catalog)
    (lat lon : R) (maxDistance : option MaxDistance)
    (types : option (list string)) (q : string) (k k' : Z) :
  (0 <= k <= k')%Z -> (k' <= Sql.bigint_max)%Z ->
  (forall a b, In a db -> In b db ->
     row_distance lat lon a = row_distance lat lon b -> a = b) ->
  (forall a b, In a db -> In b db ->
     strxfrm (name a) = strxfrm (name b) -> a = b) ->
  (forall rows,
     Permutation
       (filter (where_clause lat lon (latRange (dflt Infinity maxDistance))
                  (lonRange (dflt Infinity maxDistance) lat)
                  (dflt default_types types)) db) rows ->
     StronglySorted
       (fun a b => row_distance lat lon a <= row_distance lat lon b) rows ->
     rows = candidates db lat lon (latRange (dflt Infinity maxDistance))
              (lonRange (dflt Infinity maxDistance) lat)
              (dflt default_types types))
  /\ (forall rows,
        Permutation (filter (search_where ("%" ++ q ++ "%")) db) rows ->
        StronglySorted
          (fun a b => by_rank_name strxfrm (q ++ "%") a b = true) rows ->
        rows = Sql.order_by (by_rank_name strxfrm (q ++ "%"))
                 (filter (search_where ("%" ++ q ++ "%")) db))
  /\ (forall l l',
        findNearestAirports db lat lon (Some k) maxDistance types = Ok l ->
        findNearestAirports db lat lon (Some k') maxDistance types = Ok l' ->
        l = firstn (Z.to_nat k) l')
  /\ (forall l l',
        searchByName strxfrm db q (Some k) = Ok l ->
        searchByName strxfrm db q (Some k') = Ok l' ->
        l = firstn (Z.to_nat k) l').
Proof.
  intros [Hk Hk'] _ Hdist Hname. split; [|split; [|split]].
  - intros rows HP HS. symmetry.
    apply (@sorted_perm_unique Row
             (fun a b => row_distance lat lon a <= row_distance lat lon b));
      [| | apply candidates_sorted | exact HS].
    + intros a b Ha Hb H1 H2.
      apply candidates_In in Ha, Hb.
      apply Hdist; [apply Ha | apply Hb | lra].
    + eapply perm_trans; [|exact HP].
      apply Permutation_sym, order_by_perm.
  - intros rows HP HS. symmetry.
    apply (@sorted_perm_unique Row
             (fun a b => by_rank_name strxfrm (q ++ "%") a b = true));
      [| | apply order_by_sorted;
           [apply by_rank_name_total | apply by_rank_name_trans]
       | exact HS].
    + intros a b Ha Hb H1 H2.
      apply order_by_In, filter_In in Ha, Hb.
      apply by_rank_name_spec in H1, H2.
      apply Hname; [apply Ha | apply Hb |].
      destruct H1 as [H1 | [E1 H1]]; destruct H2 as [H2 | [E2 H2]];
        try lia.
      unfold collate_leb in H1, H2. apply string_leb_antisym; assumption.
    + eapply perm_trans; [|exact HP].
      apply Permutation_sym, order_by_perm.
  - intros l l' Hl Hl'.
    rewrite findNearestAirports_limit_last in Hl, Hl' by (simpl; lia).
    injection Hl as <-. injection Hl' as <-.
    simpl dflt. rewrite firstn_map, firstn_firstn.
    now replace (Nat.min (Z.to_nat k) (Z.to_nat k')) with (Z.to_nat k) by lia.
  - intros l l' Hl Hl'.
    rewrite searchByName_ok in Hl, Hl' by (simpl; lia).
    injection Hl as <-. injection Hl' as <-.
    simpl dflt. rewrite firstn_map, firstn_firstn.
    now replace (Nat.min (Z.to_nat k) (Z.to_nat k')) with (Z.to_nat k) by lia.
Qed.

Lemma answers_grow_with_limit_witness :
  (0 <= 1 <= 2)%Z /\ (2 <= Sql.bigint_max)%Z
  /\ (forall a b, In a [EQ01; LFOH] -> In b [EQ01; LFOH] ->
        row_distance 0 0 a = row_distance 0 0 b -> a = b)
  /\ (forall a b, In a [EQ01; LFOH] -> In b [EQ01; LFOH] ->
        byte_order (name a) = byte_order (name b) -> a = b)
  /\ exists l l',
       searchByName byte_order [EQ01; LFOH] "e" (Some 1%Z) = Ok l
       /\ searchByName byte_order [EQ01; LFOH] "e" (Some 2%Z) = Ok l'
       /\ l = firstn (Z.to_nat 1) l'.
Proof.
  assert (H1 : (0 <= 1 <= 2)%Z) by lia.
  assert (H2 : (2 <= Sql.bigint_max)%Z) by (unfold Sql.bigint_max; lia).
  assert (H3 : forall a b, In a [EQ01; LFOH] -> In b [EQ01; LFOH] ->
                 row_distance 0 0 a = row_distance 0 0 b -> a = b).
  { assert (Hfar : row_distance 0 0 EQ01 < row_distance 0 0 LFOH).
    { pose proof EQ01_distance as He. pose proof PI_gt_3 as HPI.
      assert (Ha : -90 <= 0 <= 90) by lra.
      assert (Hb : -90 <= 99 / 2 <= 90) by lra.
      pose proof (proj1 (@distance_ge_meridian 0 0 (99 / 2) 0 Ha Hb)) as Hm.
      unfold row_distance. simpl latitude. simpl longitude.
      unfold row_distance in He. simpl latitude in He.
      simpl longitude in He. nra. }
    intros a b [<- | [<- | []]] [<- | [<- | []]] H;
      try reflexivity; rewrite H in Hfar; lra. }
  assert (H4 : forall a b, In a [EQ01; LFOH] -> In b [EQ01; LFOH] ->
                 byte_order (name a) = byte_order (name b) -> a = b).
  { intros a b [<- | [<- | []]] [<- | [<- | []]] H;
      try reflexivity; discriminate H. }
  split; [exact H1|]. split; [exact H2|]. split; [exact H3|].
  split; [exact H4|].
  eexists. eexists.
  split; [apply searchByName_ok; simpl; lia|].
  split; [apply searchByName_ok; simpl; lia|].
  apply (proj2 (proj2 (proj2
           (@answers_grow_with_limit byte_order [EQ01; LFOH] 0 0 None None
              "e" 1 2 H1 H2 H3 H4))));
    apply searchByName_ok; simpl; lia.
Defined.



Lemma candidates_singleton (a : Row) (lat lon dlat dlon : R)
    (types : list string) :
  candidates [a] lat lon dlat dlon types
  = if where_clause lat lon dlat dlon types a then [a] else [].
Proof.
  unfold candidates. simpl filter.
  destruct (where_clause lat lon dlat dlon types a); reflexivity.
Qed.

(** X23.  Omitting the radius can lose a facility that a radius finds.  From
    latitude 89.9 and any western longitude, a facility stored at the pole
    with longitude 180 is found with every radius of 100 km or more, about
    11 km away, and is not found without a radius: the rectangle of a
    finite radius is wider there than the fixed one. *)
Theorem radius_finds_more_than_none (lon r : R) :
  -180 <= lon < 0 -> 100 <= r ->
  let pole := facility "" "" 90 180 "" "" in
  row_distance (899 / 10) lon pole < 12
  /\ findNearestAirport [pole] (899 / 10) lon (Some (Km r)) (Some [])
     = Ok (Some (formatAirport (buildGeoQuery true (899 / 10) lon pole) true))
  /\ findNearestAirport [pole] (899 / 10) lon None (Some []) = Ok None.
Proof.
  intros Hlon Hr pole. pose proof PI_bounds as HPI.
  assert (Hd : row_distance (899 / 10) lon pole = 6371 * (PI / 1800)).
  { unfold row_distance, distance_expr, acos_arg, Sql.radians.
    simpl latitude. simpl longitude.
    replace (90 * PI / 180) with (PI / 2) by lra.
    rewrite cos_PI2, sin_PI2.
    replace (cos (899 / 10 * PI / 180) * 0 * cos (180 * PI / 180 - lon * PI / 180)
             + sin (899 / 10 * PI / 180) * 1)
      with (sin (899 / 10 * PI / 180)) by lra.
    replace (899 / 10 * PI / 180) with (PI / 2 - PI / 1800) by lra.
    rewrite sin_shift. rewrite acos_cos by lra. reflexivity. }
  split; [rewrite Hd; lra|].
  destruct (@cos_near_pole (1 / 10)) as [Hpos Hlt]; [lra|].
  replace ((90 - 1 / 10) * Math_PI / 180)
    with (899 / 10 * Math_PI / 180) in * by lra.
  split.
  - rewrite findNearestAirport_eq. simpl dflt.
    assert (Hw : where_clause (899 / 10) lon (latRange (Km r))
                   (lonRange (Km r) (899 / 10)) [] pole = true).
    { rewrite where_clause_split. unfold in_rectangle. simpl typeFilter.
      rewrite andb_true_r. apply andb_true_iff.
      split; apply between_true; simpl latitude; simpl longitude;
        simpl latRange; [lra|].
      unfold lonRange.
      set (c := cos (899 / 10 * Math_PI / 180)) in *.
      assert (H360 : 360 <= r / (111 * c)).
      { apply (Rmult_le_reg_r (111 * c)); [lra|].
        unfold Rdiv. rewrite Rmult_assoc, Rinv_l by lra. nra. }
      lra. }
    rewrite candidates_singleton, Hw.
    rewrite exceeds_within, within_row.
    replace (Sql.Rleb (row_distance (899 / 10) lon pole) r) with true
      by (symmetry; apply Rleb_true; rewrite Hd; lra).
    reflexivity.
  - rewrite findNearestAirport_eq. simpl dflt. simpl latRange.
    simpl lonRange. rewrite no_candidates; [reflexivity|].
    intros a [<- | []]. unfold in_rectangle. apply andb_false_iff. right.
    apply between_false. right. simpl longitude. lra.
Qed.

Lemma radius_finds_more_than_none_witness :
  -180 <= -170 < 0 /\ 100 <= 100
  /\ findNearestAirport [facility "" "" 90 180 "" ""] (899 / 10) (-170)
       None (Some []) = Ok None.
Proof.
  assert (H1 : -180 <= -170 < 0) by lra.
  assert (H2 : 100 <= 100) by lra.
  split; [exact H1|]. split; [exact H2|].
  exact (proj2 (proj2 (@radius_finds_more_than_none (-170) 100 H1 H2))).
Defined.

(** X24.  The case of the query text does not matter to [searchByName]:
    two texts that are equal up to case get the same answer, wildcards or
    not. *)
Theorem searchByName_ignores_case (strxfrm : string -> string) (db : Catalog)
    (q q' : string) (limit : option Z) :
  Sql.lower q = Sql.lower q' ->
  searchByName strxfrm db q limit = searchByName strxfrm db q' limit.
Proof.
  intro H. unfold searchByName.
  assert (Hw : forall a, search_where ("%" ++ q ++ "%") a
                         = search_where ("%" ++ q' ++ "%") a).
  { intro a. unfold search_where. now rewrite !lower_append, H. }
  assert (Hr : forall a b, by_rank_name strxfrm (q ++ "%") a b
                           = by_rank_name strxfrm (q' ++ "%") a b).
  { intros a b. unfold by_rank_name, search_rank.
    now rewrite !lower_append, H. }
  rewrite (filter_ext _ _ Hw).
  now rewrite (order_by_ext _ _ _ Hr).
Qed.

Lemma searchByName_ignores_case_witness :
  Sql.lower "PaR" = Sql.lower "par"
  /\ searchByName byte_order [LFOH; LFPG; SSPG; LFPI] "PaR" None
     = searchByName byte_order [LFOH; LFPG; SSPG; LFPI] "par" None.
Proof.
  assert (H : Sql.lower "PaR" = Sql.lower "par") by reflexivity.
  split; [exact H|].
  exact (@searchByName_ignores_case byte_order [LFOH; LFPG; SSPG; LFPI]
           "PaR" "par" None H).
Defined.




